(** * AnagramExplorer: a shallow embedding of [AnagramExplorer.py]

    The Python class [AnagramExplorer] is embedded method by method.

    - A Python [str] is a [string]; a character is one of the 256 code
      points of [ascii].  Indexing a [str] and [list(word)] give
      one-character strings, as in Python.
    - A Python exception is a value of [exn]; a method that can raise
      returns a [result].
    - The counting dictionaries [dict1] and [dict2] are [gmap string nat]:
      only [get], key membership and [==] are used on them, none of which
      sees the insertion order.
    - The look-up dictionary is an insertion-ordered association list
      ([ODict]), because [.values()] iterates in insertion order.
    - The set built by [get_all_anagrams] is a [gset string].
    - Where the sharing of the corpus list and of the stored dictionary
      matters, the instance lives in a store of objects ([Store]). *)

From Stdlib Require Import String Ascii NArith List Permutation.
From stdpp Require Import base decidable option list sorting gmap strings.

Local Open Scope string_scope.
Local Open Scope list_scope.
Local Open Scope nat_scope.

(** ** Exceptions and results *)

Inductive exn : Type :=
  | IndexError   (* sequence index out of range *)
  | TypeError.   (* wrong number of positional arguments *)

Inductive result (A : Type) : Type :=
  | Ok (a : A)
  | Raise (e : exn).
Arguments Ok {A} a.
Arguments Raise {A} e.

Definition rbind {A B} (r : result A) (k : A → result B) : result B :=
  match r with
  | Ok a => k a
  | Raise e => Raise e
  end.

Notation "x ←! r ;; k" := (rbind r (λ x, k))
  (at level 100, r at next level, k at level 200, right associativity,
   format "x  ←!  r  ;;  '/' k").

(** ** Strings *)

Module Str.

(** [c.lower()] on the code points below 256: the ASCII capitals and the
    Latin-1 capitals (U+00C0 to U+00DE, the multiplication sign U+00D7
    apart) move up by 32; every other code point is unchanged. *)
Definition lower_char (c : ascii) : ascii :=
  let n := N_of_ascii c in
  if ((65 <=? n) && (n <=? 90) ||
      (192 <=? n) && (n <=? 222) && negb (n =? 215))%N
  then ascii_of_N (n + 32)
  else c.

(** [s.lower()].  On this alphabet a lowercase form has the length of the
    string; on other code points Python's [lower] can lengthen it, and no
    property below relies on the length of a lowercase form. *)
Fixpoint lower (s : string) : string :=
  match s with
  | EmptyString => EmptyString
  | String c s' => String (lower_char c) (lower s')
  end.

(** [len(s)] *)
Definition len (s : string) : nat := String.length s.

(** [s[i]] for [0 <= i]: a one-character string, or [IndexError]. *)
Definition index (s : string) (i : nat) : result string :=
  match String.get i s with
  | Some c => Ok (String c EmptyString)
  | None => Raise IndexError
  end.

(** [list(s)]: the one-character strings of [s], in order. *)
Fixpoint chars (s : string) : list string :=
  match s with
  | EmptyString => []
  | String c s' => String c EmptyString :: chars s'
  end.

(** [s1 <= s2] on [str]: lexicographic, by code point. *)
Definition le (s1 s2 : string) : Prop := String.leb s1 s2 = true.

Global Instance le_dec : RelDecision le.
Proof. intros s1 s2. unfold le. apply _. Defined.

End Str.

(** ** Lists of strings, ordered as Python orders lists *)

Module StrList.

(** [l1 <= l2] on [list[str]]: lexicographic, elements compared as [str]. *)
Fixpoint leb (l1 l2 : list string) : bool :=
  match l1, l2 with
  | [], _ => true
  | _ :: _, [] => false
  | x :: l1', y :: l2' =>
      match String.compare x y with
      | Lt => true
      | Eq => leb l1' l2'
      | Gt => false
      end
  end.

Definition le (l1 l2 : list string) : Prop := leb l1 l2 = true.

Global Instance le_dec : RelDecision le.
Proof. intros l1 l2. unfold le. apply _. Defined.

(** [l[0]]: the first element, or [IndexError] on the empty list. *)
Definition index0 (l : list string) : result string :=
  match l with
  | x :: _ => Ok x
  | [] => Raise IndexError
  end.

End StrList.

(** [sorted(l)], for the order [R] of the elements.  On [str] and on
    [list[str]] the order is total and antisymmetric, so the sorted
    arrangement of [l] is unique ([sorted_unique] below) and every sorting
    algorithm returns it. *)
Definition sorted {A} (R : relation A) `{!RelDecision R} (l : list A) : list A :=
  merge_sort R l.

(** ** Insertion-ordered dictionaries *)

Module ODict.
Section odict.
Context {K V : Type} `{!EqDecision K}.

(** [d.get(k)] *)
Fixpoint get (k : K) (d : list (K * V)) : option V :=
  match d with
  | [] => None
  | (k', v) :: d' => if decide (k = k') then Some v else get k d'
  end.

(** [d[k] = v]: the value is replaced where the key stands, a new key
    goes to the end. *)
Fixpoint set (k : K) (v : V) (d : list (K * V)) : list (K * V) :=
  match d with
  | [] => [(k, v)]
  | (k', v') :: d' =>
      if decide (k = k') then (k', v) :: d' else (k', v') :: set k v d'
  end.

(** [d.keys()] and [d.values()], in insertion order. *)
Definition keys (d : list (K * V)) : list K := map fst d.
Definition values (d : list (K * V)) : list V := map snd d.

End odict.
End ODict.

(** ** The class *)

(** The two attributes of an instance: [self.__corpus], and
    [self.anagram_lookup], which is unbound ([None]) until [__init__]
    assigns it. *)
Record AnagramExplorer : Type := {
  corpus : list string;
  anagram_lookup : option (list (list string * list string))
}.

(** The binding of the positional arguments of a call to the parameters of a
    [def] that takes [nparams] parameters after [self]: any other number of
    arguments raises [TypeError]. *)
Definition bind_params {A} (nparams : nat) (args : list A) : result unit :=
  if decide (length args = nparams) then Ok tt else Raise TypeError.

(** *** [get_lookup_dict] *)

(** [key = tuple(sorted(list(word)))] *)
Definition key_of (word : string) : list string :=
  sorted Str.le (Str.chars word).

(** The body of the loop:
    [lookup[key] = lookup.get(key, []) + [word]] *)
Definition lookup_step (lookup : list (list string * list string))
    (word : string) : list (list string * list string) :=
  let key := key_of word in
  ODict.set key (default [] (ODict.get key lookup) ++ [word]) lookup.

(** The body of [def get_lookup_dict(self)]. *)
Definition get_lookup_dict (self : AnagramExplorer)
    : list (list string * list string) :=
  foldl lookup_step [] (sorted Str.le (corpus self)).

(** A call [self.get_lookup_dict(args...)]: the [def] has no parameter after
    [self]. *)
Definition call_get_lookup_dict {A} (self : AnagramExplorer) (args : list A)
    : result (list (list string * list string)) :=
  _ ←! bind_params 0 args ;;
  Ok (get_lookup_dict self).

(** *** [__init__] *)

Definition __init__ (all_words : list string) : AnagramExplorer :=
  let self := {| corpus := all_words; anagram_lookup := None |} in
  {| corpus := corpus self;
     anagram_lookup := Some (get_lookup_dict self) |}.

(** *** [is_valid_anagram_pair] *)

(** [d[c] = 1 + d.get(c, 0)] *)
Definition count_step (d : gmap string nat) (c : string) : gmap string nat :=
  <[c := 1 + default 0 (d !! c)]> d.

(** The first loop, over the indices [idxs] that remain of
    [range(len(word1))]. *)
Fixpoint count_loop (word1 word2 : string) (idxs : list nat)
    (dict1 dict2 : gmap string nat)
    : result (gmap string nat * gmap string nat) :=
  match idxs with
  | [] => Ok (dict1, dict2)
  | i :: idxs' =>
      c1 ←! Str.index word1 i ;;
      let dict1 := count_step dict1 c1 in
      c2 ←! Str.index word2 i ;;
      let dict2 := count_step dict2 c2 in
      count_loop word1 word2 idxs' dict1 dict2
  end.

(** The second loop and the final [return]: the first letter that is not a
    key of [dict1] returns [False]; after the loop, [dict1 == dict2]. *)
Fixpoint check_letters (letters : list string)
    (dict1 dict2 : gmap string nat) : bool :=
  match letters with
  | [] => bool_decide (dict1 = dict2)
  | i :: letters' =>
      if bool_decide (i ∈ dom dict1)
      then check_letters letters' dict1 dict2
      else false
  end.

Definition is_valid_anagram_pair (self : AnagramExplorer)
    (pair : string * string) (letters : list string) : result bool :=
  let word1 := Str.lower (fst pair) in
  let word2 := Str.lower (snd pair) in
  if bool_decide (word1 ∉ corpus self) || bool_decide (word2 ∉ corpus self)
  then Ok false
  else
    dicts ←! count_loop word1 word2 (seq 0 (Str.len word1)) ∅ ∅ ;;
    let '(dict1, dict2) := dicts in
    Ok (check_letters letters dict1 dict2).

(** *** [get_all_anagrams] *)

(** The loop over the groups: every word of a group of more than one word is
    added to the set. *)
Definition add_group (all_anagrams : gset string) (anagrams : list string)
    : gset string :=
  if decide (1 < length anagrams)
  then foldl (λ s anagram, s ∪ {[anagram]}) all_anagrams anagrams
  else all_anagrams.

Definition collect_anagrams (groups : list (list string)) : gset string :=
  foldl add_group ∅ groups.

Definition get_all_anagrams (self : AnagramExplorer) (letters : list string)
    : result (gset string) :=
  lookup ←! call_get_lookup_dict self [corpus self] ;;
  Ok (collect_anagrams (ODict.values lookup)).

(** *** [get_most_anagrams] *)

(** One turn of the loop on the state [(max_value, most_anagramable)]. *)
Definition most_step (st : nat * list (list string)) (v : list string)
    : nat * list (list string) :=
  let '(max_value, most_anagramable) := st in
  if decide (length v = max_value) then (max_value, most_anagramable ++ [v])
  else if decide (max_value < length v) then (length v, [v])
  else (max_value, most_anagramable).

Definition most_anagramable (groups : list (list string))
    : list (list string) :=
  snd (foldl most_step (2, []) groups).

(** [[value[0] for value in l]] *)
Fixpoint firsts (l : list (list string)) : result (list string) :=
  match l with
  | [] => Ok []
  | value :: l' =>
      x ←! StrList.index0 value ;;
      xs ←! firsts l' ;;
      Ok (x :: xs)
  end.

Definition get_most_anagrams (self : AnagramExplorer) (letters : list string)
    : result (list string) :=
  lookup ←! call_get_lookup_dict self [corpus self] ;;
  firsts (sorted StrList.le (most_anagramable (ODict.values lookup))).

(** ** The instance in a store

    [__init__] keeps the list it is given, not a copy: the caller, and
    whoever reads the [corpus] property, hold the very list the instance
    reads.  The dictionary that [__init__] stores in [anagram_lookup] is an
    object too, and so are the lists it holds.  For what depends on this
    sharing, the objects live in a store: an object is addressed by its
    position, and allocation appends.  The objects to which nothing refers
    once the statement that makes them is over (the sorted copy of the
    corpus, the default [[]] of [get], [[word]], the counting dictionaries,
    the set and the lists of the two queries) are not put in the store. *)

Abbreviation addr := nat.

Inductive obj : Type :=
  | OList (l : list string)                   (* a [list] of [str] *)
  | ODictObj (d : list (list string * addr)). (* a [dict]: key to list object *)

Abbreviation store := (list obj).

(** The attributes of an instance, as references. *)
Record instance : Type := {
  corpus_ref : addr;
  anagram_lookup_ref : option addr
}.

(** What a call gives back to the caller. *)
Inductive retval : Type :=
  | RBool (b : bool)
  | RRef (a : addr)
  | RSet (s : gset string)
  | RList (l : list string).

(** What a caller can do: read the [corpus] property, call a method, or
    assign to an object it holds ([client_write]: any change of a list or
    dictionary, seen as the replacement of its content). *)
Inductive call : Type :=
  | Call_corpus
  | Call_is_valid_anagram_pair (pair : string * string) (letters : list string)
  | Call_get_lookup_dict
  | Call_get_all_anagrams (letters : list string)
  | Call_get_most_anagrams (letters : list string)
  | Client_write (a : addr) (o : obj).

Module Store.

Definition alloc (o : obj) (h : store) : addr * store :=
  (length h, h ++ [o]).

Definition write (a : addr) (o : obj) (h : store) : store :=
  <[a := o]> h.

Definition read_list (h : store) (a : addr) : list string :=
  match h !! a with
  | Some (OList l) => l
  | _ => []
  end.

Definition read_dict (h : store) (a : addr) : list (list string * addr) :=
  match h !! a with
  | Some (ODictObj d) => d
  | _ => []
  end.

(** The dictionary at [a] with the lists it refers to: the mapping that
    [==] compares. *)
Definition deep_dict (h : store) (a : addr)
    : list (list string * list string) :=
  (λ kr, (kr.1, read_list h kr.2)) <$> read_dict h a.

(** The instance as the methods read it. *)
Definition view (h : store) (self : instance) : AnagramExplorer :=
  {| corpus := read_list h (corpus_ref self);
     anagram_lookup := deep_dict h <$> anagram_lookup_ref self |}.

(** [lookup[key] = lookup.get(key, []) + [word]]: [+] makes a new list, the
    assignment changes the dictionary [lookup] in place. *)
Definition lookup_step (lookup : addr) (h : store) (word : string) : store :=
  let key := key_of word in
  let d := read_dict h lookup in
  let old :=
    match ODict.get key d with
    | Some r => read_list h r
    | None => []
    end in
  let '(r', h) := alloc (OList (old ++ [word])) h in
  write lookup (ODictObj (ODict.set key r' d)) h.

(** The body of [def get_lookup_dict(self)]: [lookup = {}] is a new
    dictionary, the loop runs over a sorted copy of the corpus. *)
Definition get_lookup_dict (self : instance) (h : store) : addr * store :=
  let '(lookup, h') := alloc (ODictObj []) h in
  (lookup,
   foldl (lookup_step lookup) h' (sorted Str.le (read_list h (corpus_ref self)))).

Definition call_get_lookup_dict {A} (self : instance) (args : list A)
    (h : store) : store * result addr :=
  match bind_params 0 args with
  | Raise e => (h, Raise e)
  | Ok _ => let '(lookup, h') := get_lookup_dict self h in (h', Ok lookup)
  end.

(** [AnagramExplorer(all_words)], for the list object [all_words]. *)
Definition __init__ (all_words : addr) (h : store) : instance * store :=
  let self := {| corpus_ref := all_words; anagram_lookup_ref := None |} in
  let '(lookup, h') := get_lookup_dict self h in
  ({| corpus_ref := corpus_ref self; anagram_lookup_ref := Some lookup |}, h').

Definition is_valid_anagram_pair (self : instance) (h : store)
    (pair : string * string) (letters : list string) : store * result bool :=
  (h, is_valid_anagram_pair (view h self) pair letters).

Definition get_all_anagrams (self : instance) (h : store)
    (letters : list string) : store * result (gset string) :=
  let '(h', r) := call_get_lookup_dict self [corpus_ref self] h in
  match r with
  | Raise e => (h', Raise e)
  | Ok lookup =>
      (h', Ok (collect_anagrams (ODict.values (deep_dict h' lookup))))
  end.

Definition get_most_anagrams (self : instance) (h : store)
    (letters : list string) : store * result (list string) :=
  let '(h', r) := call_get_lookup_dict self [corpus_ref self] h in
  match r with
  | Raise e => (h', Raise e)
  | Ok lookup =>
      (h', firsts (sorted StrList.le
                     (most_anagramable (ODict.values (deep_dict h' lookup)))))
  end.

(** One step of a caller: the store after it and what the caller gets. *)
Definition perform (self : instance) (h : store) (c : call)
    : store * result retval :=
  match c with
  | Call_corpus => (h, Ok (RRef (corpus_ref self)))
  | Call_is_valid_anagram_pair p letters =>
      let '(h', r) := is_valid_anagram_pair self h p letters in
      (h', b ←! r ;; Ok (RBool b))
  | Call_get_lookup_dict =>
      let '(h', r) := call_get_lookup_dict (A:=addr) self [] h in
      (h', a ←! r ;; Ok (RRef a))
  | Call_get_all_anagrams letters =>
      let '(h', r) := get_all_anagrams self h letters in
      (h', s ←! r ;; Ok (RSet s))
  | Call_get_most_anagrams letters =>
      let '(h', r) := get_most_anagrams self h letters in
      (h', l ←! r ;; Ok (RList l))
  | Client_write a o => (write a o h, Ok (RRef a))
  end.

Definition run (self : instance) (h : store) (calls : list call) : store :=
  foldl (λ h c, fst (perform self h c)) h calls.



End Store.

(** What the script prints. *)
Inductive value : Type :=
  | VBool (b : bool)
  | VList (l : list string)
  | VSet (s : gset string).

(** ** Vocabulary of the properties *)

(** The words of [l] with key [k], in the order of [l]. *)
Definition with_key (k : list string) (l : list string) : list string :=
  filter (λ w, key_of w = k) l.

(** Two words stand in one group of the dictionary [d]. *)
Definition same_group (d : list (list string * list string))
    (w1 w2 : string) : Prop :=
  ∃ k ws, ODict.get k d = Some ws ∧ w1 ∈ ws ∧ w2 ∈ ws.

(** The character-frequency dictionary of a sequence of characters. *)
Definition char_counts (cs : list string) : gmap string nat :=
  foldl count_step ∅ cs.

(** The greatest length among the groups ([0] when there is none). *)
Definition max_len (groups : list (list string)) : nat :=
  max_list (length <$> groups).

(** Every element of [letters] is a character of [word]. *)
Definition covers (word : string) (letters : list string) : Prop :=
  Forall (λ i, i ∈ Str.chars word) letters.

(** The two words have the same character-frequency multiset. *)
Definition same_multiset (word1 word2 : string) : Prop :=
  Str.chars word1 ≡ₚ Str.chars word2.

Global Instance covers_dec word letters : Decision (covers word letters).
Proof. unfold covers. apply _. Defined.

Global Instance same_multiset_dec : RelDecision same_multiset.
Proof. intros word1 word2. unfold same_multiset. apply _. Defined.


(** The first word of one group comes strictly before the first word of
    the other. *)
Definition first_lt (g1 g2 : list string) : Prop :=
  match head g1, head g2 with
  | Some x, Some y => String.compare x y = Lt
  | _, _ => False
  end.

(** The first words of two options, strictly ordered. *)
Definition ohead_lt (o1 o2 : option string) : Prop :=
  match o1, o2 with
  | Some x, Some y => String.compare x y = Lt
  | _, _ => False
  end.

(** Every group is non-empty and holds words of its key only. *)
Definition well_keyed (d : list (list string * list string)) : Prop :=
  ∀ k ws, (k, ws) ∈ d → ws ≠ [] ∧ ∀ x, x ∈ ws → key_of x = k.

(** ** The script

    The block under [if __name__ == "__main__":], with what [print] is given
    collected in order, and the exception that ends the run, if any. *)

Inductive printed : Type :=
  | PStr (s : string)
  | PValue (v : value).

Definition words2 : list string :=
  ["rat"; "mouse"; "tar"; "art"; "chicken"; "stop"; "pots"; "tops"].

Definition main_letters : list string :=
  ["l"; "o"; "t"; "s"; "r"; "i"; "a"].

Definition main : list printed * result unit :=
  let out := [PStr "Running AnagramExplorer for testing"] in
  let my_explorer := __init__ words2 in
  match is_valid_anagram_pair my_explorer ("rat", "tar") main_letters with
  | Raise e => (out, Raise e)
  | Ok b1 =>
  let out := out ++ [PValue (VBool b1)] in
  match is_valid_anagram_pair my_explorer ("stop", "pots") main_letters with
  | Raise e => (out, Raise e)
  | Ok b2 =>
  let out := out ++ [PValue (VBool b2)] in
  match get_most_anagrams my_explorer main_letters with
  | Raise e => (out, Raise e)
  | Ok l =>
  let out := out ++ [PValue (VList l)] in
  match get_all_anagrams my_explorer main_letters with
  | Raise e => (out, Raise e)
  | Ok s => (out ++ [PValue (VSet s)], Ok tt)
  end end end end.

(** * Properties *)

(** ** The orders and [sorted] *)

Module StrFacts.

Lemma compare_le_trans (s1 s2 s3 : string) :
  String.compare s1 s2 ≠ Gt → String.compare s2 s3 ≠ Gt →
  String.compare s1 s3 ≠ Gt.
Proof.
  revert s2 s3. induction s1 as [|a s1 IH]; intros [|b s2] [|c s3];
    simpl; try done.
  unfold Ascii.compare.
  destruct (N.compare_spec (N_of_ascii a) (N_of_ascii b)) as [E1|L1|G1],
           (N.compare_spec (N_of_ascii b) (N_of_ascii c)) as [E2|L2|G2],
           (N.compare_spec (N_of_ascii a) (N_of_ascii c)) as [E3|L3|G3];
    try done; try lia; eauto.
Qed.

Lemma le_compare (s1 s2 : string) : Str.le s1 s2 ↔ String.compare s1 s2 ≠ Gt.
Proof. unfold Str.le, String.leb. by destruct (String.compare s1 s2). Qed.

Global Instance le_refl : Reflexive Str.le.
Proof.
  intros s. destruct (String.leb_total s s); done.
Qed.

Global Instance le_trans : Transitive Str.le.
Proof.
  intros s1 s2 s3. rewrite !le_compare. apply compare_le_trans.
Qed.

Global Instance le_total : Total Str.le.
Proof. intros s1 s2. apply String.leb_total. Qed.

Global Instance le_antisym : AntiSymm (=) Str.le.
Proof. intros s1 s2. apply String.leb_antisym. Qed.

Lemma compare_refl (s : string) : String.compare s s = Eq.
Proof.
  induction s as [|a s IH]; simpl; [done|].
  unfold Ascii.compare. by rewrite N.compare_refl.
Qed.

Lemma chars_length (s : string) : length (Str.chars s) = Str.len s.
Proof. induction s; simpl; [done|]. unfold Str.len in *. by f_equal. Qed.

Lemma chars_lookup (s : string) (i : nat) :
  Str.chars s !! i = (λ c, String c EmptyString) <$> String.get i s.
Proof.
  revert i. induction s as [|a s IH]; intros [|i]; simpl; try done.
Qed.

Lemma index_chars (s : string) (i : nat) :
  Str.index s i =
    match Str.chars s !! i with Some c => Ok c | None => Raise IndexError end.
Proof. unfold Str.index. rewrite chars_lookup. by destruct (String.get i s). Qed.

Lemma lower_char_idemp (c : ascii) :
  Str.lower_char (Str.lower_char c) = Str.lower_char c.
Proof.
  destruct c as [[] [] [] [] [] [] [] []]; vm_compute; reflexivity.
Qed.

Lemma lower_idemp (s : string) : Str.lower (Str.lower s) = Str.lower s.
Proof.
  induction s as [|c s IH]; simpl; [done|].
  by rewrite lower_char_idemp, IH.
Qed.

End StrFacts.

Module StrListFacts.

Global Instance le_total : Total StrList.le.
Proof.
  intros l1. unfold StrList.le.
  induction l1 as [|x l1 IH]; intros [|y l2]; simpl; auto.
  rewrite (String.compare_antisym y x).
  destruct (String.compare x y); simpl; auto.
Qed.

Lemma le_cons_head (x y : string) (l1 l2 : list string) :
  StrList.le (x :: l1) (y :: l2) → Str.le x y.
Proof.
  unfold StrList.le. simpl. rewrite StrFacts.le_compare.
  by destruct (String.compare x y).
Qed.

End StrListFacts.

Section sorted_facts.
Context {A : Type} (R : relation A) `{!RelDecision R}.

Lemma sorted_Permutation (l : list A) : sorted R l ≡ₚ l.
Proof. apply merge_sort_Permutation. Qed.

Lemma sorted_elem_of (l : list A) (x : A) : x ∈ sorted R l ↔ x ∈ l.
Proof. by rewrite sorted_Permutation. Qed.

Lemma sorted_Sorted `{!Total R} (l : list A) : Sorted R (sorted R l).
Proof. apply Sorted_merge_sort, _. Qed.

Lemma sorted_StronglySorted `{!Transitive R, !Total R} (l : list A) :
  StronglySorted R (sorted R l).
Proof. apply StronglySorted_merge_sort; apply _. Qed.

(** The sorted arrangement of a list is unique: whatever algorithm
    [sorted] runs, this is its result. *)
Lemma sorted_unique `{!Transitive R, !Total R, !AntiSymm (=) R}
    (l l' : list A) :
  l' ≡ₚ l → Sorted R l' → l' = sorted R l.
Proof.
  intros Hp Hs. apply (Sorted_unique R); [done|apply sorted_Sorted|].
  by rewrite sorted_Permutation.
Qed.

Lemma sorted_perm_eq `{!Transitive R, !Total R, !AntiSymm (=) R}
    (l l' : list A) :
  l ≡ₚ l' → sorted R l = sorted R l'.
Proof.
  intros Hp. apply sorted_unique; [|apply sorted_Sorted].
  by rewrite sorted_Permutation.
Qed.

End sorted_facts.

(** ** Insertion-ordered dictionaries *)

Module ODictFacts.
Section odict_facts.
Context {K V : Type} `{!EqDecision K}.
Implicit Types (k : K) (v : V) (d : list (K * V)).

Lemma get_set_eq k v d : ODict.get k (ODict.set k v d) = Some v.
Proof.
  induction d as [|[k' v'] d IH]; simpl.
  - by rewrite decide_True.
  - destruct (decide (k = k')) as [->|Hne]; simpl.
    + by rewrite decide_True.
    + by rewrite decide_False.
Qed.

Lemma get_set_ne k k' v d :
  k ≠ k' → ODict.get k' (ODict.set k v d) = ODict.get k' d.
Proof.
  intros Hne. induction d as [|[k0 v0] d IH]; simpl.
  - by rewrite decide_False.
  - destruct (decide (k = k0)) as [->|Hne0]; simpl.
    + by rewrite !decide_False.
    + by rewrite IH.
Qed.

Lemma get_Some_elem_of k v d : ODict.get k d = Some v → (k, v) ∈ d.
Proof.
  induction d as [|[k' v'] d IH]; simpl; [done|].
  destruct (decide (k = k')) as [->|Hne].
  - intros [= ->]. left.
  - intros H. right. auto.
Qed.

Lemma get_None_not_key k d : ODict.get k d = None ↔ k ∉ ODict.keys d.
Proof.
  unfold ODict.keys. induction d as [|[k' v'] d IH]; simpl.
  - split; [intros _; apply not_elem_of_nil|done].
  - rewrite not_elem_of_cons. destruct (decide (k = k')) as [->|Hne].
    + split; [done|]. by intros [? _].
    + rewrite IH. tauto.
Qed.

Lemma elem_of_get k v d :
  NoDup (ODict.keys d) → (k, v) ∈ d → ODict.get k d = Some v.
Proof.
  unfold ODict.keys. induction d as [|[k' v'] d IH]; simpl.
  - intros _ H. by apply elem_of_nil in H.
  - rewrite NoDup_cons. intros [Hk Hd].
    rewrite elem_of_cons. intros [[= -> ->]|Hin].
    + by rewrite decide_True.
    + rewrite decide_False; [auto|].
      intros ->. apply Hk. apply list_elem_of_fmap. by exists (k', v).
Qed.

Lemma keys_set k v d :
  ODict.keys (ODict.set k v d) =
    match ODict.get k d with
    | Some _ => ODict.keys d
    | None => ODict.keys d ++ [k]
    end.
Proof.
  unfold ODict.keys. induction d as [|[k' v'] d IH]; simpl; [done|].
  destruct (decide (k = k')) as [->|Hne]; simpl; [done|].
  rewrite IH. by destruct (ODict.get k d).
Qed.

Lemma NoDup_keys_set k v d :
  NoDup (ODict.keys d) → NoDup (ODict.keys (ODict.set k v d)).
Proof.
  intros Hd. rewrite keys_set.
  destruct (ODict.get k d) eqn:Hg; [done|].
  apply NoDup_app. split_and!; [done| |apply NoDup_singleton].
  intros x Hx ->%list_elem_of_singleton.
  by apply get_None_not_key in Hg.
Qed.

End odict_facts.

(** Appending to the list stored under a key, as the look-up loop does,
    adds exactly the appended words to the words of the dictionary. *)
Lemma concat_values_set_app {K W : Type} `{!EqDecision K}
    (k : K) (ws : list W) (d : list (K * list W)) :
  concat (ODict.values (ODict.set k (default [] (ODict.get k d) ++ ws) d))
    ≡ₚ concat (ODict.values d) ++ ws.
Proof.
  unfold ODict.values. induction d as [|[k' v'] d IH]; simpl.
  - by rewrite app_nil_r.
  - destruct (decide (k = k')) as [->|Hne]; simpl.
    + rewrite <- !(assoc_L (++)). f_equiv. apply Permutation_app_comm.
    + rewrite IH. by rewrite (assoc_L (++)).
Qed.

End ODictFacts.

(** ** The look-up dictionary *)

Section lookup_facts.
Implicit Types (d : list (list string * list string)) (l : list string).

Lemma lookup_step_get_eq d w :
  ODict.get (key_of w) (lookup_step d w) =
    Some (default [] (ODict.get (key_of w) d) ++ [w]).
Proof. apply ODictFacts.get_set_eq. Qed.

Lemma lookup_step_get_ne d w k :
  key_of w ≠ k → ODict.get k (lookup_step d w) = ODict.get k d.
Proof. apply ODictFacts.get_set_ne. Qed.

Lemma build_get k d l :
  ODict.get k (foldl lookup_step d l) =
    match ODict.get k d, with_key k l with
    | None, [] => None
    | o, ws => Some (default [] o ++ ws)
    end.
Proof.
  unfold with_key. revert d. induction l as [|w l IH]; intros d; simpl.
  - rewrite filter_nil. destruct (ODict.get k d); simpl; [|done].
    by rewrite app_nil_r.
  - rewrite IH, filter_cons. destruct (decide (key_of w = k)) as [<-|Hne].
    + rewrite lookup_step_get_eq. simpl.
      rewrite <- (assoc_L (++)). simpl.
      by destruct (ODict.get (key_of w) d).
    + by rewrite lookup_step_get_ne.
Qed.

Lemma build_NoDup_keys d l :
  NoDup (ODict.keys d) → NoDup (ODict.keys (foldl lookup_step d l)).
Proof.
  revert d. induction l as [|w l IH]; intros d Hd; simpl; [done|].
  apply IH, ODictFacts.NoDup_keys_set, Hd.
Qed.

Lemma build_concat_values d l :
  concat (ODict.values (foldl lookup_step d l)) ≡ₚ
    concat (ODict.values d) ++ l.
Proof.
  revert d. induction l as [|w l IH]; intros d; simpl.
  - by rewrite app_nil_r.
  - rewrite IH. unfold lookup_step.
    rewrite ODictFacts.concat_values_set_app.
    by rewrite <- (assoc_L (++)).
Qed.

Lemma get_lookup_dict_get (self : AnagramExplorer) k :
  ODict.get k (get_lookup_dict self) =
    match with_key k (sorted Str.le (corpus self)) with
    | [] => None
    | ws => Some ws
    end.
Proof. unfold get_lookup_dict. by rewrite build_get. Qed.

Lemma get_lookup_dict_NoDup_keys (self : AnagramExplorer) :
  NoDup (ODict.keys (get_lookup_dict self)).
Proof. apply build_NoDup_keys. constructor. Qed.

Lemma get_lookup_dict_elem_of (self : AnagramExplorer) k ws :
  (k, ws) ∈ get_lookup_dict self ↔
    ws = with_key k (sorted Str.le (corpus self)) ∧ ws ≠ [].
Proof.
  split.
  - intros Hin.
    apply ODictFacts.elem_of_get in Hin; [|apply get_lookup_dict_NoDup_keys].
    rewrite get_lookup_dict_get in Hin.
    destruct (with_key k _); [done|]. by injection Hin as <-.
  - intros [-> Hne]. apply ODictFacts.get_Some_elem_of.
    rewrite get_lookup_dict_get. by destruct (with_key k _).
Qed.

Lemma with_key_elem_of k l w : w ∈ with_key k l ↔ key_of w = k ∧ w ∈ l.
Proof. unfold with_key. by rewrite list_elem_of_filter. Qed.

Lemma with_key_Sorted k l : StronglySorted Str.le l → Sorted Str.le (with_key k l).
Proof.
  intros Hl. apply StronglySorted_Sorted.
  unfold with_key. induction Hl as [|x l Hl IH Hx]; [constructor|].
  rewrite filter_cons. destruct (decide (key_of x = k)); [|done].
  constructor; [done|].
  apply Forall_forall. intros y [_ Hy]%list_elem_of_filter.
  by eapply Forall_forall in Hx.
Qed.

End lookup_facts.

(** ** The counting dictionaries *)

Section count_facts.
Implicit Types (d : gmap string nat) (l : list string) (c : string).

Lemma count_step_lookup d c x :
  count_step d c !! x =
    if decide (c = x) then Some (S (default 0 (d !! c))) else d !! x.
Proof. unfold count_step. by rewrite lookup_insert. Qed.

Lemma foldl_count_step_lookup d l x :
  foldl count_step d l !! x =
    match count_occ String.string_dec l x with
    | 0 => d !! x
    | S n => Some (default 0 (d !! x) + S n)
    end.
Proof.
  revert d. induction l as [|c l IH]; intros d; simpl; [done|].
  rewrite IH, count_step_lookup.
  destruct (String.string_dec c x) as [->|Hne].
  - rewrite decide_True by done. simpl.
    destruct (count_occ String.string_dec l x); f_equal; lia.
  - by rewrite decide_False.
Qed.

Lemma char_counts_lookup l x :
  char_counts l !! x =
    match count_occ String.string_dec l x with 0 => None | S n => Some (S n) end.
Proof.
  unfold char_counts. rewrite foldl_count_step_lookup, lookup_empty.
  by destruct (count_occ String.string_dec l x).
Qed.

Lemma char_counts_dom l x : x ∈ dom (char_counts l) ↔ x ∈ l.
Proof.
  rewrite elem_of_dom, char_counts_lookup, list_elem_of_In.
  rewrite (count_occ_In String.string_dec).
  destruct (count_occ String.string_dec l x).
  - split; [by intros [? ?]|lia].
  - split; [lia|eauto].
Qed.

(** Two frequency dictionaries are equal exactly when the character
    sequences are permutations of each other. *)
Lemma char_counts_eq l1 l2 : char_counts l1 = char_counts l2 ↔ l1 ≡ₚ l2.
Proof.
  rewrite (Permutation_count_occ String.string_dec). split.
  - intros Heq x. apply (f_equal (λ m : gmap string nat, m !! x)) in Heq.
    rewrite !char_counts_lookup in Heq.
    destruct (count_occ String.string_dec l1 x), (count_occ String.string_dec l2 x);
      congruence.
  - intros Hc. apply map_eq. intros x.
    by rewrite !char_counts_lookup, Hc.
Qed.

Lemma check_letters_spec letters (d1 d2 : gmap string nat) :
  check_letters letters d1 d2 =
    bool_decide (Forall (λ i, i ∈ dom d1) letters) && bool_decide (d1 = d2).
Proof.
  induction letters as [|i letters IH]; simpl.
  - done.
  - rewrite IH. destruct (decide (i ∈ dom d1)) as [Hi|Hi].
    + rewrite (bool_decide_true (i ∈ dom d1)) by done.
      f_equal. apply bool_decide_ext. rewrite Forall_cons. tauto.
    + rewrite (bool_decide_false (i ∈ dom d1)) by done.
      rewrite bool_decide_false; [done|].
      rewrite Forall_cons. tauto.
Qed.

(** The first loop on the indices [i, i+1, ..., i+n-1], when both words
    have them all. *)
Lemma count_loop_seq word1 word2 i n d1 d2 :
  i + n ≤ Str.len word1 → i + n ≤ Str.len word2 →
  count_loop word1 word2 (seq i n) d1 d2 =
    Ok (foldl count_step d1 (take n (drop i (Str.chars word1))),
        foldl count_step d2 (take n (drop i (Str.chars word2)))).
Proof.
  rewrite <- !StrFacts.chars_length.
  revert i d1 d2. induction n as [|n IH]; intros i d1 d2 H1 H2; simpl.
  - done.
  - rewrite !StrFacts.index_chars.
    destruct (lookup_lt_is_Some_2 (Str.chars word1) i) as [c1 Hc1]; [lia|].
    destruct (lookup_lt_is_Some_2 (Str.chars word2) i) as [c2 Hc2]; [lia|].
    rewrite Hc1, Hc2. simpl.
    rewrite IH by lia.
    by rewrite (drop_S _ _ _ Hc1), (drop_S _ _ _ Hc2).
Qed.

(** The first loop when the second word ends before the indices do. *)
Lemma count_loop_short word1 word2 i n d1 d2 :
  i + n ≤ Str.len word1 → i ≤ Str.len word2 → Str.len word2 < i + n →
  count_loop word1 word2 (seq i n) d1 d2 = Raise IndexError.
Proof.
  rewrite <- !StrFacts.chars_length.
  revert i d1 d2. induction n as [|n IH]; intros i d1 d2 H1 H2 H3; simpl.
  - lia.
  - rewrite !StrFacts.index_chars.
    destruct (lookup_lt_is_Some_2 (Str.chars word1) i) as [c1 Hc1]; [lia|].
    rewrite Hc1. simpl.
    destruct (decide (i = length (Str.chars word2))) as [->|Hne].
    + by rewrite lookup_ge_None_2.
    + destruct (lookup_lt_is_Some_2 (Str.chars word2) i) as [c2 Hc2]; [lia|].
      rewrite Hc2. simpl. apply IH; lia.
Qed.

End count_facts.

(** ** [is_valid_anagram_pair], case by case *)

Section pair_facts.
Context (self : AnagramExplorer).
Implicit Types (a b : string) (letters : list string).

Lemma is_valid_anagram_pair_absent a b letters :
  Str.lower a ∉ corpus self ∨ Str.lower b ∉ corpus self →
  is_valid_anagram_pair self (a, b) letters = Ok false.
Proof.
  intros H. unfold is_valid_anagram_pair. simpl.
  destruct H as [H|H].
  - by rewrite (bool_decide_true _ H).
  - rewrite (bool_decide_true _ H). by rewrite orb_true_r.
Qed.

Lemma is_valid_anagram_pair_short a b letters :
  Str.lower a ∈ corpus self → Str.lower b ∈ corpus self →
  Str.len (Str.lower b) < Str.len (Str.lower a) →
  is_valid_anagram_pair self (a, b) letters = Raise IndexError.
Proof.
  intros Ha Hb Hlen. unfold is_valid_anagram_pair. simpl.
  rewrite !bool_decide_false by (intros H; by apply H). simpl.
  rewrite count_loop_short; [done|lia..].
Qed.

Lemma is_valid_anagram_pair_long a b letters :
  Str.lower a ∈ corpus self → Str.lower b ∈ corpus self →
  Str.len (Str.lower a) ≤ Str.len (Str.lower b) →
  is_valid_anagram_pair self (a, b) letters =
    Ok (bool_decide (covers (Str.lower a) letters) &&
        bool_decide (char_counts (Str.chars (Str.lower a)) =
                     char_counts (take (Str.len (Str.lower a))
                                       (Str.chars (Str.lower b))))).
Proof.
  intros Ha Hb Hlen. unfold is_valid_anagram_pair. simpl.
  rewrite !bool_decide_false by (intros H; by apply H). simpl.
  rewrite count_loop_seq by lia. simpl.
  rewrite !drop_0, check_letters_spec.
  rewrite (take_ge (Str.chars (Str.lower a)))
    by (by rewrite StrFacts.chars_length).
  do 2 f_equal. apply bool_decide_ext. unfold covers.
  apply Forall_proper; [|done]. intros i. apply char_counts_dom.
Qed.

(** Words of one length: the result is the coverage of the letters by the
    first word, and the equality of the two multisets. *)
Lemma is_valid_anagram_pair_same_len a b letters :
  Str.lower a ∈ corpus self → Str.lower b ∈ corpus self →
  Str.len (Str.lower a) = Str.len (Str.lower b) →
  is_valid_anagram_pair self (a, b) letters =
    Ok (bool_decide (covers (Str.lower a) letters) &&
        bool_decide (same_multiset (Str.lower a) (Str.lower b))).
Proof.
  intros Ha Hb Hlen. rewrite is_valid_anagram_pair_long by (done || lia).
  rewrite Hlen, take_ge by (by rewrite StrFacts.chars_length).
  do 2 f_equal. apply bool_decide_ext, char_counts_eq.
Qed.

Lemma same_multiset_len a b : same_multiset a b → Str.len a = Str.len b.
Proof.
  unfold same_multiset. intros Hp.
  rewrite <- !StrFacts.chars_length. by rewrite Hp.
Qed.

Lemma same_multiset_covers a b letters :
  same_multiset a b → covers a letters → covers b letters.
Proof.
  unfold same_multiset, covers. intros Hp Hc.
  eapply Forall_impl; [exact Hc|]. intros i Hi. simpl in *. by rewrite <- Hp.
Qed.

End pair_facts.

(** ** Groups of the look-up dictionary *)

Section group_facts.
Context (self : AnagramExplorer).

Lemma get_lookup_dict_get_Some k ws :
  ODict.get k (get_lookup_dict self) = Some ws ↔
    ws = with_key k (sorted Str.le (corpus self)) ∧ ws ≠ [].
Proof.
  rewrite get_lookup_dict_get.
  destruct (with_key k _) as [|w l] eqn:E.
  - split; [done|]. by intros [-> ?].
  - split; [by intros [= <-]|]. by intros [-> _].
Qed.

(** A corpus word stands in the group stored under its own key. *)
Lemma get_lookup_dict_own_group w :
  w ∈ corpus self →
  ∃ ws, ODict.get (key_of w) (get_lookup_dict self) = Some ws ∧ w ∈ ws.
Proof.
  intros Hw. exists (with_key (key_of w) (sorted Str.le (corpus self))).
  assert (w ∈ with_key (key_of w) (sorted Str.le (corpus self))) as Hin.
  { apply with_key_elem_of. split; [done|]. by apply sorted_elem_of. }
  split; [|done]. apply get_lookup_dict_get_Some. split; [done|].
  intros E. rewrite E in Hin. by apply elem_of_nil in Hin.
Qed.

Lemma get_lookup_dict_group_key k ws w :
  ODict.get k (get_lookup_dict self) = Some ws → w ∈ ws →
  key_of w = k ∧ w ∈ corpus self.
Proof.
  intros [-> _]%get_lookup_dict_get_Some [Hk Hw]%with_key_elem_of.
  split; [done|]. by apply sorted_elem_of in Hw.
Qed.

Lemma same_group_key w1 w2 :
  w1 ∈ corpus self →
  same_group (get_lookup_dict self) w1 w2 ↔
    key_of w1 = key_of w2 ∧ w2 ∈ corpus self.
Proof.
  intros H1. split.
  - intros (k & ws & Hg & Hw1 & Hw2).
    destruct (get_lookup_dict_group_key _ _ _ Hg Hw1) as [<- _].
    destruct (get_lookup_dict_group_key _ _ _ Hg Hw2) as [-> ?]. done.
  - intros [Hk H2].
    destruct (get_lookup_dict_own_group w1 H1) as (ws & Hg & Hw1).
    exists (key_of w1), ws. split_and!; [done..|].
    apply get_lookup_dict_get_Some in Hg as [-> _].
    apply with_key_elem_of. split; [done|]. by apply sorted_elem_of.
Qed.

Lemma key_of_eq_Permutation w1 w2 :
  key_of w1 = key_of w2 ↔ Str.chars w1 ≡ₚ Str.chars w2.
Proof.
  unfold key_of. split.
  - intros E.
    rewrite <- (sorted_Permutation Str.le (Str.chars w1)), E.
    apply sorted_Permutation.
  - apply sorted_perm_eq; apply _.
Qed.

End group_facts.

(** * The claims *)

(** C7 (partition invariant).  For every corpus the keys of the look-up
    dictionary are pairwise distinct, the words of all its groups together
    are, as a multiset, the sorted corpus, and every corpus word stands in
    exactly one group: an entry of the dictionary that contains the word is
    the entry stored under the word's key. *)
Theorem C7_partition (self : AnagramExplorer) :
  NoDup (ODict.keys (get_lookup_dict self)) ∧
  concat (ODict.values (get_lookup_dict self)) ≡ₚ sorted Str.le (corpus self) ∧
  (∀ w, w ∈ corpus self →
     ∃ k ws, (k, ws) ∈ get_lookup_dict self ∧ w ∈ ws ∧
       ∀ k' ws', (k', ws') ∈ get_lookup_dict self → w ∈ ws' →
         k' = k ∧ ws' = ws).
Proof.
  split_and!.
  - apply get_lookup_dict_NoDup_keys.
  - unfold get_lookup_dict. by rewrite build_concat_values.
  - intros w Hw.
    destruct (get_lookup_dict_own_group self w Hw) as (ws & Hg & Hin).
    exists (key_of w), ws. split_and!; [|done|].
    + by apply ODictFacts.get_Some_elem_of.
    + intros k' ws' Hin' Hw'.
      apply ODictFacts.elem_of_get in Hin';
        [|apply get_lookup_dict_NoDup_keys].
      destruct (get_lookup_dict_group_key self _ _ _ Hin' Hw') as [<- _].
      split; [done|]. congruence.
Qed.

Lemma C7_partition_witness :
  let self := __init__ ["tar"; "mouse"; "rat"; "tar"] in
  concat (ODict.values (get_lookup_dict self)) ≡ₚ ["mouse"; "rat"; "tar"; "tar"] ∧
  ∃ k ws, (k, ws) ∈ get_lookup_dict self ∧ "tar" ∈ ws ∧
    ∀ k' ws', (k', ws') ∈ get_lookup_dict self → "tar" ∈ ws' →
      k' = k ∧ ws' = ws.
Proof.
  intros self.
  destruct (C7_partition self) as (_ & Hperm & Hone).
  split; [exact Hperm|].
  apply Hone. vm_compute. apply list_elem_of_here.
Defined.

(** C8 (canonical-key grouping).  Two corpus words stand in one group of the
    look-up dictionary exactly when sorting their characters gives the same
    sequence; and the group stored under a key is made of the words of the
    lexicographically sorted corpus that have this key, in that order, so it
    is itself lexicographically sorted. *)
Theorem C8_canonical_key_grouping (self : AnagramExplorer) (w1 w2 : string) :
  w1 ∈ corpus self → w2 ∈ corpus self →
  (same_group (get_lookup_dict self) w1 w2 ↔
     sorted Str.le (Str.chars w1) = sorted Str.le (Str.chars w2)) ∧
  (∀ k ws, ODict.get k (get_lookup_dict self) = Some ws →
     ws = with_key k (sorted Str.le (corpus self)) ∧ Sorted Str.le ws ∧
     Forall (λ w, sorted Str.le (Str.chars w) = k) ws).
Proof.
  intros H1 H2. split.
  - rewrite same_group_key by done. fold (key_of w1) (key_of w2). tauto.
  - intros k ws [-> _]%get_lookup_dict_get_Some. split_and!; [done| |].
    + apply with_key_Sorted, sorted_StronglySorted; apply _.
    + apply Forall_forall. by intros w [Hk _]%with_key_elem_of.
Qed.

Lemma C8_canonical_key_grouping_witness :
  let self := __init__ ["tar"; "mouse"; "rat"; "art"] in
  same_group (get_lookup_dict self) "tar" "art" ∧
  ODict.get ["a"; "r"; "t"] (get_lookup_dict self) = Some ["art"; "rat"; "tar"] ∧
  Sorted Str.le ["art"; "rat"; "tar"].
Proof.
  intros self.
  assert ("tar" ∈ corpus self) as H1 by (vm_compute; apply list_elem_of_here).
  assert ("art" ∈ corpus self) as H2
    by (vm_compute; do 3 apply list_elem_of_further; apply list_elem_of_here).
  destruct (C8_canonical_key_grouping self "tar" "art" H1 H2) as [Hiff Hgrp].
  assert (ODict.get ["a"; "r"; "t"] (get_lookup_dict self)
            = Some ["art"; "rat"; "tar"]) as Hg by (vm_compute; reflexivity).
  split_and!; [|exact Hg|].
  - apply Hiff. vm_compute. reflexivity.
  - apply (Hgrp _ _ Hg).
Defined.

(** C9 (a word paired with itself).  When the lowercase form of [w] is in
    the corpus and every element of [letters] is a character of that
    lowercase form, [is_valid_anagram_pair((w, w), letters)] returns
    [True]. *)
Theorem C9_self_pair (self : AnagramExplorer) (w : string)
    (letters : list string) :
  Str.lower w ∈ corpus self →
  covers (Str.lower w) letters →
  is_valid_anagram_pair self (w, w) letters = Ok true.
Proof.
  intros Hw Hcov.
  rewrite is_valid_anagram_pair_same_len by done.
  rewrite bool_decide_true by done.
  by rewrite bool_decide_true by (unfold same_multiset; done).
Qed.

Lemma C9_self_pair_witness :
  is_valid_anagram_pair (__init__ ["stop"; "pots"]) ("Stop", "Stop")
    ["s"; "t"; "t"; "p"] = Ok true.
Proof.
  apply C9_self_pair.
  - vm_compute. apply list_elem_of_here.
  - apply (bool_decide_unpack _). vm_compute. exact I.
Defined.

(** ** Letters as a set *)

Lemma check_letters_same_elements (letters letters' : list string)
    (d1 d2 : gmap string nat) :
  (∀ i, i ∈ letters ↔ i ∈ letters') →
  check_letters letters' d1 d2 = check_letters letters d1 d2.
Proof.
  intros Hel. rewrite !check_letters_spec. f_equal.
  apply bool_decide_ext. rewrite !Forall_forall.
  split; intros H i Hi; apply H, Hel, Hi.
Qed.

(** C6 (coverage by the first word), as the code has it.  Where the call
    returns at all (a word is missing from the corpus, or the second word is
    at least as long as the first), it returns [False] as soon as an element
    of [letters] is not a character of the lowercase first word.  Only the
    elements of [letters] count, not their multiplicities.  For two corpus
    words of one length the result is the coverage of [letters] by the first
    word together with the equality of the two multisets: the second word is
    not consulted for coverage.  And two calls that differ in the order of
    the words and both return, return the same boolean. *)
Theorem C6_coverage_first_word (self : AnagramExplorer) (a b : string)
    (letters : list string) :
  (¬ covers (Str.lower a) letters →
   Str.lower a ∉ corpus self ∨ Str.lower b ∉ corpus self ∨
     Str.len (Str.lower a) ≤ Str.len (Str.lower b) →
   is_valid_anagram_pair self (a, b) letters = Ok false) ∧
  (∀ letters', (∀ i, i ∈ letters ↔ i ∈ letters') →
   is_valid_anagram_pair self (a, b) letters' =
     is_valid_anagram_pair self (a, b) letters) ∧
  (Str.lower a ∈ corpus self → Str.lower b ∈ corpus self →
   Str.len (Str.lower a) = Str.len (Str.lower b) →
   is_valid_anagram_pair self (a, b) letters =
     Ok (bool_decide (covers (Str.lower a) letters) &&
         bool_decide (same_multiset (Str.lower a) (Str.lower b)))) ∧
  (∀ r r', is_valid_anagram_pair self (a, b) letters = Ok r →
   is_valid_anagram_pair self (b, a) letters = Ok r' → r = r').
Proof.
  split_and!.
  - intros Hcov Hret.
    destruct (decide (Str.lower a ∈ corpus self)) as [Ha|Ha];
      [|apply is_valid_anagram_pair_absent; by left].
    destruct (decide (Str.lower b ∈ corpus self)) as [Hb|Hb];
      [|apply is_valid_anagram_pair_absent; by right].
    destruct Hret as [?|[?|Hlen]]; [done..|].
    rewrite is_valid_anagram_pair_long by done.
    by rewrite (bool_decide_false _ Hcov).
  - intros letters' Hel. unfold is_valid_anagram_pair. simpl.
    destruct (_ || _); [done|].
    destruct (count_loop _ _ _ _ _) as [[d1 d2]|e]; simpl; [|done].
    f_equal. by apply check_letters_same_elements.
  - apply is_valid_anagram_pair_same_len.
  - intros r r' Hab Hba.
    destruct (decide (Str.lower a ∈ corpus self)) as [Ha|Ha]; cycle 1.
    { rewrite is_valid_anagram_pair_absent in Hab by (by left).
      rewrite is_valid_anagram_pair_absent in Hba by (by right).
      congruence. }
    destruct (decide (Str.lower b ∈ corpus self)) as [Hb|Hb]; cycle 1.
    { rewrite is_valid_anagram_pair_absent in Hab by (by right).
      rewrite is_valid_anagram_pair_absent in Hba by (by left).
      congruence. }
    destruct (decide (Str.len (Str.lower b) < Str.len (Str.lower a))).
    { by rewrite is_valid_anagram_pair_short in Hab. }
    destruct (decide (Str.len (Str.lower a) < Str.len (Str.lower b))).
    { by rewrite is_valid_anagram_pair_short in Hba. }
    rewrite is_valid_anagram_pair_same_len in Hab by (done || lia).
    rewrite is_valid_anagram_pair_same_len in Hba by (done || lia).
    injection Hab as <-. injection Hba as <-.
    destruct (decide (same_multiset (Str.lower a) (Str.lower b))) as [Hm|Hm].
    + assert (same_multiset (Str.lower b) (Str.lower a)) as Hm'
        by (unfold same_multiset in *; done).
      rewrite (bool_decide_true _ Hm), (bool_decide_true _ Hm').
      f_equal. apply bool_decide_ext.
      split; by apply same_multiset_covers.
    + assert (¬ same_multiset (Str.lower b) (Str.lower a)) as Hm'
        by (unfold same_multiset in *; intros H; by apply Hm).
      rewrite (bool_decide_false _ Hm), (bool_decide_false _ Hm').
      by rewrite !andb_false_r.
Qed.

Lemma C6_coverage_first_word_witness :
  is_valid_anagram_pair (__init__ ["art"; "rat"]) ("art", "rat") ["x"]
    = Ok false.
Proof.
  apply (proj1 (C6_coverage_first_word (__init__ ["art"; "rat"])
                  "art" "rat" ["x"])).
  - apply (bool_decide_unpack _). vm_compute. exact I.
  - right. right. vm_compute. lia.
Defined.

(** C6, as stated, fails where the second word is shorter than the first:
    ["x"] is no character of ["abc"], yet the call does not return [False],
    it raises [IndexError]. *)
Lemma C6_counterexample :
  bool_decide (covers (Str.lower "abc") ["x"]) = false ∧
  is_valid_anagram_pair (__init__ ["abc"; "ab"]) ("abc", "ab") ["x"]
    = Raise IndexError.
Proof. split; vm_compute; reflexivity. Qed.

(** C5 (case), as the code has it.  Only the two words of the pair given to
    [is_valid_anagram_pair] are lowercased, and they are compared with the
    corpus words as stored.  The corpus words themselves are never
    lowercased: [get_lookup_dict] stores a corpus word under the sorted
    sequence of its own characters, so two corpus words share a group
    exactly when their characters, as stored, are a permutation of each
    other. *)
Theorem C5_case_as_stored (self : AnagramExplorer) :
  (∀ a b letters,
     is_valid_anagram_pair self (a, b) letters =
       is_valid_anagram_pair self (Str.lower a, Str.lower b) letters) ∧
  (∀ a b letters,
     Str.lower a ∉ corpus self ∨ Str.lower b ∉ corpus self →
     is_valid_anagram_pair self (a, b) letters = Ok false) ∧
  (∀ w, w ∈ corpus self →
     ∃ ws, ODict.get (sorted Str.le (Str.chars w)) (get_lookup_dict self)
             = Some ws ∧ w ∈ ws) ∧
  (∀ w1 w2, w1 ∈ corpus self → w2 ∈ corpus self →
     same_group (get_lookup_dict self) w1 w2 ↔
       Str.chars w1 ≡ₚ Str.chars w2).
Proof.
  split_and!.
  - intros a b letters. unfold is_valid_anagram_pair. simpl.
    by rewrite !StrFacts.lower_idemp.
  - intros a b letters. apply is_valid_anagram_pair_absent.
  - intros w. apply get_lookup_dict_own_group.
  - intros w1 w2 H1 H2. rewrite same_group_key by done.
    rewrite key_of_eq_Permutation. tauto.
Qed.

Lemma C5_case_as_stored_witness :
  is_valid_anagram_pair (__init__ ["ab"; "ba"]) ("AB", "Ba") ["a"] = Ok true ∧
  is_valid_anagram_pair (__init__ ["Ab"; "ba"]) ("Ab", "ba") ["a"] = Ok false.
Proof.
  split.
  - rewrite (proj1 (C5_case_as_stored (__init__ ["ab"; "ba"]))).
    vm_compute. reflexivity.
  - apply (proj1 (proj2 (C5_case_as_stored (__init__ ["Ab"; "ba"])))).
    left. apply (bool_decide_unpack _). vm_compute. exact I.
Defined.

(** C5, as stated, fails: the lowercase forms of ["Ab"] and ["ba"] are
    anagrams of each other, and the look-up dictionary holds the two words
    in two groups, under two keys. *)
Lemma C5_counterexample :
  same_multiset (Str.lower "Ab") (Str.lower "ba") ∧
  get_lookup_dict (__init__ ["Ab"; "ba"]) =
    [ (["A"; "b"], ["Ab"]); (["a"; "b"], ["ba"]) ].
Proof.
  split.
  - apply (bool_decide_unpack _). vm_compute. exact I.
  - vm_compute. reflexivity.
Qed.

(** ** The loops of the two queries *)

Section query_facts.
Implicit Types (groups : list (list string)) (v ws : list string).

Lemma add_group_elem_of (s : gset string) ws x :
  x ∈ add_group s ws ↔ x ∈ s ∨ (1 < length ws ∧ x ∈ ws).
Proof.
  unfold add_group. destruct (decide (1 < length ws)) as [Hlen|Hlen].
  - assert (∀ l (s0 : gset string),
              x ∈ foldl (λ s1 anagram, s1 ∪ {[anagram]}) s0 l ↔
              x ∈ s0 ∨ x ∈ l) as Hfold.
    { induction l as [|y l IH]; intros s0; simpl.
      - rewrite elem_of_nil. tauto.
      - rewrite IH, elem_of_union, elem_of_singleton, elem_of_cons. tauto. }
    rewrite Hfold. tauto.
  - tauto.
Qed.

Lemma collect_anagrams_elem_of groups x :
  x ∈ collect_anagrams groups ↔
    ∃ ws, ws ∈ groups ∧ 1 < length ws ∧ x ∈ ws.
Proof.
  unfold collect_anagrams.
  assert (∀ (s : gset string),
            x ∈ foldl add_group s groups ↔
            x ∈ s ∨ ∃ ws, ws ∈ groups ∧ 1 < length ws ∧ x ∈ ws) as Hfold.
  { induction groups as [|v groups IH]; intros s; simpl.
    - split; [auto|]. intros [?|(ws & []%elem_of_nil & _)]; done.
    - rewrite IH, add_group_elem_of. split.
      + intros [[?|[? ?]]|(ws & ? & ? & ?)]; [by left|right..].
        * exists v. split_and!; [apply list_elem_of_here|done..].
        * exists ws. split_and!; [by apply list_elem_of_further|done..].
      + intros [?|(ws & [->|?]%elem_of_cons & ? & ?)];
          [by left; left|by left; right|right]. by exists ws. }
  rewrite Hfold. rewrite elem_of_empty. split; [|by right].
  by intros [[]|?].
Qed.

Lemma most_step_fold (m : nat) (acc : list (list string)) groups :
  foldl most_step (m, acc) groups =
    (m `max` max_len groups,
     (if decide (m `max` max_len groups = m) then acc else []) ++
       filter (λ v, length v = m `max` max_len groups) groups).
Proof.
  revert m acc. induction groups as [|v groups IH]; intros m acc.
  - change (max_len []) with 0. simpl.
    rewrite Nat.max_0_r, decide_True by done. by rewrite app_nil_r.
  - change (max_len (v :: groups)) with (length v `max` max_len groups).
    set (n := max_len groups) in *.
    rewrite filter_cons. cbn [foldl]. unfold most_step at 2.
    destruct (decide (length v = m)) as [Hv|Hv].
    + rewrite IH.
      replace (m `max` (length v `max` n)) with (m `max` n) by lia.
      f_equal. destruct (decide (m `max` n = m)) as [E|E].
      * rewrite (decide_True (P:=length v = _)) by lia.
        by rewrite <- (assoc_L (++)).
      * by rewrite (decide_False (P:=length v = _)) by lia.
    + destruct (decide (m < length v)) as [Hlt|Hlt].
      * rewrite IH.
        replace (m `max` (length v `max` n)) with (length v `max` n) by lia.
        f_equal. rewrite (decide_False (P:=_ = m)) by lia. simpl.
        destruct (decide (length v `max` n = length v)) as [E|E].
        -- by rewrite decide_True by lia.
        -- by rewrite decide_False by lia.
      * rewrite IH.
        replace (m `max` (length v `max` n)) with (m `max` n) by lia.
        f_equal. by rewrite (decide_False (P:=length v = _)) by lia.
Qed.

(** The groups kept by the loop of [get_most_anagrams]: those of the
    greatest length, which is taken to be at least 2. *)
Lemma most_anagramable_filter groups :
  most_anagramable groups =
    filter (λ v, length v = 2 `max` max_len groups) groups.
Proof.
  unfold most_anagramable. rewrite most_step_fold. simpl.
  by destruct (decide _).
Qed.

Lemma max_len_ge groups v : v ∈ groups → length v ≤ max_len groups.
Proof.
  intros Hv. unfold max_len. apply max_list_elem_of_le.
  apply list_elem_of_fmap. by exists v.
Qed.

Lemma firsts_Ok (l : list (list string)) :
  Forall (λ v, v ≠ []) l →
  firsts l = Ok ((λ v, default EmptyString (head v)) <$> l).
Proof.
  induction 1 as [|v l Hv _ IH]; simpl; [done|].
  destruct v as [|x v]; [done|]. simpl. by rewrite IH.
Qed.

Lemma Sorted_firsts (l : list (list string)) :
  Forall (λ v, v ≠ []) l → Sorted StrList.le l →
  Sorted Str.le ((λ v, default EmptyString (head v)) <$> l).
Proof.
  intros Hne Hs. induction Hs as [|v l Hs IH Hhd]; simpl; [constructor|].
  apply Forall_cons in Hne as [Hv Hne]. constructor; [by apply IH|].
  destruct Hhd as [|v' l' Hle]; simpl; constructor.
  apply Forall_cons in Hne as [Hv' _].
  destruct v as [|x v], v' as [|y v']; try done. simpl.
  by eapply StrListFacts.le_cons_head.
Qed.

End query_facts.

(** ** The two queries past the call of [get_lookup_dict]

    What the bodies of [get_all_anagrams] and [get_most_anagrams] compute
    from the look-up dictionary of the instance. *)

Section query_bodies.
Context (self : AnagramExplorer).

Lemma values_get_lookup_dict ws :
  ws ∈ ODict.values (get_lookup_dict self) ↔
    ∃ k, ODict.get k (get_lookup_dict self) = Some ws.
Proof.
  unfold ODict.values. rewrite list_elem_of_fmap. split.
  - intros ([k ws'] & -> & Hin). exists k. simpl.
    apply ODictFacts.elem_of_get; [apply get_lookup_dict_NoDup_keys|done].
  - intros [k Hg]. exists (k, ws). split; [done|].
    by apply ODictFacts.get_Some_elem_of.
Qed.

(** The set collected by [get_all_anagrams]: the words of the groups of
    two words or more. *)
Lemma collect_anagrams_get_lookup_dict x :
  x ∈ collect_anagrams (ODict.values (get_lookup_dict self)) ↔
    ∃ k ws, ODict.get k (get_lookup_dict self) = Some ws ∧
      2 ≤ length ws ∧ x ∈ ws.
Proof.
  rewrite collect_anagrams_elem_of. split.
  - intros (ws & [k Hg]%values_get_lookup_dict & Hlen & Hx).
    exists k, ws. split_and!; [done|lia|done].
  - intros (k & ws & Hg & Hlen & Hx). exists ws. split_and!; [|lia|done].
    apply values_get_lookup_dict. by exists k.
Qed.

(** The list built by [get_most_anagrams]: the first words of the groups
    of the greatest size (at least 2), in lexicographic order; each is the
    lexicographically first word of its group. *)
Lemma most_anagrams_get_lookup_dict :
  ∃ r,
    firsts (sorted StrList.le
              (most_anagramable (ODict.values (get_lookup_dict self))))
      = Ok r ∧
    Sorted Str.le r ∧
    ∀ x, x ∈ r ↔
      ∃ k ws, ODict.get k (get_lookup_dict self) = Some ws ∧
        length ws = 2 `max` max_len (ODict.values (get_lookup_dict self)) ∧
        head ws = Some x ∧ Forall (Str.le x) ws.
Proof.
  set (groups := ODict.values (get_lookup_dict self)).
  set (kept := sorted StrList.le (most_anagramable groups)).
  assert (∀ v, v ∈ kept ↔
            v ∈ groups ∧ length v = 2 `max` max_len groups) as Hkept.
  { intros v. unfold kept.
    rewrite sorted_elem_of, most_anagramable_filter, list_elem_of_filter.
    tauto. }
  assert (Forall (λ v, v ≠ []) kept) as Hne.
  { apply Forall_forall. intros v [_ Hlen]%Hkept ->. simpl in Hlen. lia. }
  eexists. split_and!.
  - by apply firsts_Ok.
  - apply Sorted_firsts; [done|]. apply sorted_Sorted, _.
  - intros x. rewrite list_elem_of_fmap. split.
    + intros (v & -> & Hv). pose proof Hv as [Hg Hlen]%Hkept.
      apply values_get_lookup_dict in Hg as [k Hg].
      exists k, v. split_and!; [done..| |].
      * destruct v; [|done]. simpl in Hlen. lia.
      * apply get_lookup_dict_get_Some in Hg as [Hv' _].
        assert (StronglySorted Str.le v) as Hs.
        { rewrite Hv'. apply Sorted_StronglySorted; [apply _|].
          apply with_key_Sorted, sorted_StronglySorted; apply _. }
        destruct Hs as [|y v Hs Hy]; simpl; [done|].
        constructor; [reflexivity|done].
    + intros (k & ws & Hg & Hlen & Hhd & _). exists ws. split.
      * by rewrite Hhd.
      * apply Hkept. split; [|done].
        apply values_get_lookup_dict. by exists k.
Qed.

End query_bodies.

(** * The claims the code does not meet *)

(** C1 (totality), evaluated.  [is_valid_anagram_pair] raises [IndexError]
    on two corpus words when the second is shorter than the first, and
    [get_all_anagrams] and [get_most_anagrams] raise [TypeError] on every
    instance and every [letters]: each calls [get_lookup_dict] with one
    argument too many. *)
Theorem C1_operations_raise :
  is_valid_anagram_pair (__init__ ["abc"; "ab"]) ("abc", "ab") []
    = Raise IndexError ∧
  (∀ self letters, get_all_anagrams self letters = Raise TypeError) ∧
  (∀ self letters, get_most_anagrams self letters = Raise TypeError).
Proof. split_and!; [vm_compute; reflexivity|reflexivity..]. Qed.

(** C2 ([get_most_anagrams]), evaluated on the corpus of the claim.  The
    call raises [TypeError] whatever the letters; the body of the method,
    run on the look-up dictionary of the instance, would give [["abed"]]. *)
Theorem C2_get_most_anagrams_raises (letters : list string) :
  get_most_anagrams (__init__ ["abed"; "bead"; "mouse"]) letters
    = Raise TypeError ∧
  firsts (sorted StrList.le
            (most_anagramable
               (ODict.values
                  (get_lookup_dict (__init__ ["abed"; "bead"; "mouse"])))))
    = Ok ["abed"].
Proof. split; [reflexivity|vm_compute; reflexivity]. Qed.

(** C3 ([get_all_anagrams]), evaluated.  On the empty corpus, and on a
    corpus of three anagrams, the call raises [TypeError] whatever the
    letters; the body of the method, run on the look-up dictionary of the
    instance, would give the empty set and the three words. *)
Theorem C3_get_all_anagrams_raises (letters : list string) :
  get_all_anagrams (__init__ []) letters = Raise TypeError ∧
  get_all_anagrams (__init__ ["rat"; "tar"; "art"]) letters
    = Raise TypeError ∧
  collect_anagrams (ODict.values (get_lookup_dict (__init__ []))) = ∅ ∧
  collect_anagrams
    (ODict.values (get_lookup_dict (__init__ ["rat"; "tar"; "art"])))
    = {["rat"; "tar"; "art"]}.
Proof. split_and!; [reflexivity..|vm_compute; reflexivity]. Qed.

(** C4 (multiset equality), evaluated.  ["ab"] and ["abc"] are both in the
    corpus, the (empty) letters are covered, the two multisets differ, and
    the call returns [True]: the counting loop reads only the first
    [len(word1)] characters of the second word.  With the two words in the
    other order the loop raises [IndexError]. *)
Theorem C4_prefix_accepted :
  bool_decide ("ab" ∈ corpus (__init__ ["ab"; "abc"])) = true ∧
  bool_decide ("abc" ∈ corpus (__init__ ["ab"; "abc"])) = true ∧
  bool_decide (covers "ab" []) = true ∧
  bool_decide (same_multiset "ab" "abc") = false ∧
  is_valid_anagram_pair (__init__ ["ab"; "abc"]) ("ab", "abc") [] = Ok true ∧
  is_valid_anagram_pair (__init__ ["ab"; "abc"]) ("abc", "ab") []
    = Raise IndexError.
Proof. split_and!; vm_compute; reflexivity. Qed.

(** * Further properties of the code *)

(** ** The key and the look-up dictionary *)

(** X1 (the key of a word).  [tuple(sorted(list(word)))] is a sorted
    rearrangement of the characters of the word, and two words have the same
    key exactly when they have the same characters with the same
    multiplicities. *)
Theorem X1_key_of_canonical (w1 w2 : string) :
  key_of w1 ≡ₚ Str.chars w1 ∧
  Sorted Str.le (key_of w1) ∧
  (key_of w1 = key_of w2 ↔ same_multiset w1 w2).
Proof.
  split_and!.
  - apply sorted_Permutation.
  - apply sorted_Sorted, _.
  - apply key_of_eq_Permutation.
Qed.

(** X2 (order of the corpus).  The look-up dictionary depends on the corpus
    as a multiset only: two instances whose corpora are rearrangements of
    each other have equal dictionaries, keys and groups in the same
    order. *)
Theorem X2_get_lookup_dict_corpus_order (self self' : AnagramExplorer) :
  corpus self ≡ₚ corpus self' →
  get_lookup_dict self = get_lookup_dict self'.
Proof.
  intros Hp. unfold get_lookup_dict.
  by rewrite (sorted_perm_eq Str.le _ _ Hp).
Qed.

Lemma X2_get_lookup_dict_corpus_order_witness :
  get_lookup_dict (__init__ ["tar"; "mouse"; "rat"]) =
  get_lookup_dict (__init__ ["rat"; "tar"; "mouse"]).
Proof.
  apply X2_get_lookup_dict_corpus_order.
  apply (bool_decide_unpack _). vm_compute. exact I.
Defined.

(** X3 (looking a string up).  For any string [s], in the corpus or not,
    the entry of the look-up dictionary under the key of [s] is the
    non-empty, lexicographically sorted list of the corpus words that are
    anagrams of [s]; there is no entry under that key exactly when no corpus
    word is an anagram of [s]. *)
Theorem X3_lookup_anagrams_of (self : AnagramExplorer) (s : string) :
  match ODict.get (key_of s) (get_lookup_dict self) with
  | Some ws =>
      ws ≠ [] ∧ Sorted Str.le ws ∧
      ∀ w, w ∈ ws ↔ w ∈ corpus self ∧ same_multiset w s
  | None => ∀ w, w ∈ corpus self → ¬ same_multiset w s
  end.
Proof.
  destruct (ODict.get (key_of s) (get_lookup_dict self)) as [ws|] eqn:Hg.
  - apply get_lookup_dict_get_Some in Hg as [-> Hne]. split_and!; [done| |].
    + apply with_key_Sorted, sorted_StronglySorted; apply _.
    + intros w. rewrite with_key_elem_of, sorted_elem_of.
      rewrite key_of_eq_Permutation. unfold same_multiset. tauto.
  - intros w Hw Hm. apply key_of_eq_Permutation in Hm.
    destruct (get_lookup_dict_own_group self w Hw) as (ws & Hg' & _).
    congruence.
Qed.

Lemma count_occ_filter_True {A} (eq_dec : ∀ x y : A, {x = y} + {x ≠ y})
    (P : A → Prop) `{!∀ x, Decision (P x)} (l : list A) (x : A) :
  P x → count_occ eq_dec (filter P l) x = count_occ eq_dec l x.
Proof.
  intros HP. induction l as [|y l IH]; simpl; [done|].
  rewrite filter_cons. destruct (eq_dec y x) as [->|Hne].
  - rewrite decide_True by done. simpl.
    destruct (eq_dec x x); [|done]. by rewrite IH.
  - destruct (decide (P y)); [|done]. simpl.
    by destruct (eq_dec y x).
Qed.

(** X4 (duplicates).  A word occurs in the group stored under its key as
    many times as it occurs in the corpus: the dictionary neither drops nor
    merges repeated corpus entries. *)
Theorem X4_duplicates_kept (self : AnagramExplorer) (w : string) :
  count_occ String.string_dec
    (default [] (ODict.get (key_of w) (get_lookup_dict self))) w =
  count_occ String.string_dec (corpus self) w.
Proof.
  rewrite get_lookup_dict_get.
  transitivity (count_occ String.string_dec
                  (with_key (key_of w) (sorted Str.le (corpus self))) w).
  { by destruct (with_key _ _). }
  unfold with_key. rewrite count_occ_filter_True by done.
  apply Permutation_count_occ, sorted_Permutation.
Qed.

(** ** [is_valid_anagram_pair] *)

(** X5 (when the validator raises).  [is_valid_anagram_pair] raises exactly
    when both lowercase words are in the corpus and the second is shorter
    than the first, and what it raises is [IndexError]. *)
Theorem X5_raises_iff (self : AnagramExplorer) (a b : string)
    (letters : list string) (e : exn) :
  is_valid_anagram_pair self (a, b) letters = Raise e ↔
    e = IndexError ∧ Str.lower a ∈ corpus self ∧ Str.lower b ∈ corpus self ∧
    Str.len (Str.lower b) < Str.len (Str.lower a).
Proof.
  split.
  - intros Hr.
    destruct (decide (Str.lower a ∈ corpus self)) as [Ha|Ha]; cycle 1.
    { by rewrite is_valid_anagram_pair_absent in Hr by (by left). }
    destruct (decide (Str.lower b ∈ corpus self)) as [Hb|Hb]; cycle 1.
    { by rewrite is_valid_anagram_pair_absent in Hr by (by right). }
    destruct (decide (Str.len (Str.lower b) < Str.len (Str.lower a)))
      as [Hlen|Hlen].
    + rewrite is_valid_anagram_pair_short in Hr by done.
      by injection Hr as <-.
    + by rewrite is_valid_anagram_pair_long in Hr by (done || lia).
  - intros (-> & Ha & Hb & Hlen). by apply is_valid_anagram_pair_short.
Qed.

(** X6 (what is compared).  For two corpus words of which the second is at
    least as long as the first, the call returns whether the letters are
    covered by the first word and the first word is an anagram of the
    prefix of the second word that has the first word's length. *)
Theorem X6_prefix_compared (self : AnagramExplorer) (a b : string)
    (letters : list string) :
  Str.lower a ∈ corpus self → Str.lower b ∈ corpus self →
  Str.len (Str.lower a) ≤ Str.len (Str.lower b) →
  is_valid_anagram_pair self (a, b) letters =
    Ok (bool_decide (covers (Str.lower a) letters) &&
        bool_decide (Str.chars (Str.lower a) ≡ₚ
                     take (Str.len (Str.lower a)) (Str.chars (Str.lower b)))).
Proof.
  intros Ha Hb Hlen. rewrite is_valid_anagram_pair_long by done.
  do 2 f_equal. apply bool_decide_ext, char_counts_eq.
Qed.

Lemma X6_prefix_compared_witness :
  is_valid_anagram_pair (__init__ ["night"; "thing"; "things"])
    ("Night", "THINGS") ["n"; "g"] = Ok true.
Proof.
  rewrite X6_prefix_compared.
  - vm_compute. reflexivity.
  - apply (bool_decide_unpack _). vm_compute. exact I.
  - apply (bool_decide_unpack _). vm_compute. exact I.
  - vm_compute. lia.
Defined.

Lemma chars_lower_elem_of (s i : string) :
  i ∈ Str.chars (Str.lower s) → Str.len i = 1 ∧ Str.lower i = i.
Proof.
  induction s as [|c s IH]; simpl.
  - by intros ?%elem_of_nil.
  - intros [->|Hi]%elem_of_cons; [|auto].
    split; [done|]. simpl. by rewrite StrFacts.lower_char_idemp.
Qed.

(** X7 (what [True] requires).  When the call returns [True], both
    lowercase words are in the corpus, the second is at least as long as the
    first, every element of [letters] occurs in both lowercase words, and
    every element of [letters] is a single character that is its own
    lowercase form: the letters themselves are never lowercased. *)
Theorem X7_true_requirements (self : AnagramExplorer) (a b : string)
    (letters : list string) :
  is_valid_anagram_pair self (a, b) letters = Ok true →
  Str.lower a ∈ corpus self ∧ Str.lower b ∈ corpus self ∧
  Str.len (Str.lower a) ≤ Str.len (Str.lower b) ∧
  covers (Str.lower a) letters ∧ covers (Str.lower b) letters ∧
  Forall (λ i, Str.len i = 1 ∧ Str.lower i = i) letters.
Proof.
  intros Hr.
  destruct (decide (Str.lower a ∈ corpus self)) as [Ha|Ha]; cycle 1.
  { by rewrite is_valid_anagram_pair_absent in Hr by (by left). }
  destruct (decide (Str.lower b ∈ corpus self)) as [Hb|Hb]; cycle 1.
  { by rewrite is_valid_anagram_pair_absent in Hr by (by right). }
  destruct (decide (Str.len (Str.lower b) < Str.len (Str.lower a)))
    as [Hlen|Hlen].
  { by rewrite is_valid_anagram_pair_short in Hr by done. }
  rewrite is_valid_anagram_pair_long in Hr by (done || lia).
  injection Hr as Hr. apply andb_true_iff in Hr as [Hcov Hcnt].
  apply bool_decide_eq_true in Hcov, Hcnt. apply char_counts_eq in Hcnt.
  split_and!; [done..|lia|done| |].
  - unfold covers in *. eapply Forall_impl; [exact Hcov|].
    intros i Hi. simpl in *. rewrite Hcnt in Hi.
    by eapply subseteq_take.
  - unfold covers in Hcov. eapply Forall_impl; [exact Hcov|].
    intros i Hi. simpl in *. by eapply chars_lower_elem_of.
Qed.

Lemma X7_true_requirements_witness :
  covers (Str.lower "Stop") ["t"; "o"] ∧ covers (Str.lower "POTS") ["t"; "o"].
Proof.
  assert (is_valid_anagram_pair (__init__ ["stop"; "pots"]) ("Stop", "POTS")
            ["t"; "o"] = Ok true) as Hr by (vm_compute; reflexivity).
  destruct (X7_true_requirements _ _ _ _ Hr) as (_ & _ & _ & H1 & H2 & _).
  by split.
Defined.

(** X8 (an empty first word).  When the empty string is in the corpus, the
    pair of the empty string and any corpus word is accepted as soon as
    [letters] is empty, and rejected otherwise: no character of the second
    word is read. *)
Theorem X8_empty_first_word (self : AnagramExplorer) (b : string)
    (letters : list string) :
  EmptyString ∈ corpus self → Str.lower b ∈ corpus self →
  is_valid_anagram_pair self (EmptyString, b) letters =
    Ok (bool_decide (letters = [])).
Proof.
  intros Ha Hb.
  rewrite is_valid_anagram_pair_long by (done || simpl; unfold Str.len; simpl; lia).
  simpl. rewrite (bool_decide_true (char_counts [] = _)) by done.
  rewrite andb_true_r. f_equal. apply bool_decide_ext.
  unfold covers. simpl. split.
  - destruct letters as [|i letters]; [done|].
    intros [[]%elem_of_nil _]%Forall_cons.
  - intros ->. constructor.
Qed.

Lemma X8_empty_first_word_witness :
  is_valid_anagram_pair (__init__ [""; "mouse"]) ("", "Mouse") [] = Ok true.
Proof.
  apply (X8_empty_first_word (__init__ [""; "mouse"]) "Mouse" []).
  - apply (bool_decide_unpack _). vm_compute. exact I.
  - apply (bool_decide_unpack _). vm_compute. exact I.
Defined.

(** X9 (the validator on a group of the index).  Two words of one group of
    the look-up dictionary that are their own lowercase forms make a valid
    pair, in either order, for every [letters] whose elements are all
    characters of the first word. *)
Theorem X9_same_group_valid (self : AnagramExplorer) (w1 w2 : string)
    (letters : list string) :
  same_group (get_lookup_dict self) w1 w2 →
  Str.lower w1 = w1 → Str.lower w2 = w2 →
  covers w1 letters →
  is_valid_anagram_pair self (w1, w2) letters = Ok true ∧
  is_valid_anagram_pair self (w2, w1) letters = Ok true.
Proof.
  intros (k & ws & Hg & Hw1 & Hw2) Hl1 Hl2 Hcov.
  destruct (get_lookup_dict_group_key self _ _ _ Hg Hw1) as [Hk1 Hc1].
  destruct (get_lookup_dict_group_key self _ _ _ Hg Hw2) as [Hk2 Hc2].
  assert (same_multiset w1 w2) as Hm
    by (apply key_of_eq_Permutation; congruence).
  assert (same_multiset w2 w1) as Hm' by (unfold same_multiset in *; done).
  pose proof (same_multiset_len _ _ Hm) as Hlen.
  split.
  - rewrite is_valid_anagram_pair_same_len; rewrite ?Hl1, ?Hl2; try done.
    by rewrite !bool_decide_true.
  - rewrite is_valid_anagram_pair_same_len; rewrite ?Hl1, ?Hl2; try done.
    rewrite !bool_decide_true; [done..|].
    by eapply same_multiset_covers.
Qed.

Lemma X9_same_group_valid_witness :
  is_valid_anagram_pair (__init__ ["tar"; "mouse"; "rat"]) ("tar", "rat") ["a"]
    = Ok true ∧
  is_valid_anagram_pair (__init__ ["tar"; "mouse"; "rat"]) ("rat", "tar") ["a"]
    = Ok true.
Proof.
  apply X9_same_group_valid.
  - exists ["a"; "r"; "t"], ["rat"; "tar"]. split_and!.
    + vm_compute. reflexivity.
    + apply (bool_decide_unpack _). vm_compute. exact I.
    + apply (bool_decide_unpack _). vm_compute. exact I.
  - reflexivity.
  - reflexivity.
  - apply (bool_decide_unpack _). vm_compute. exact I.
Defined.

(** X10 (a valid pair in the index).  When the call returns [True] on two
    words whose lowercase forms have the same length, these lowercase forms
    stand in one group of the look-up dictionary. *)
Theorem X10_valid_same_group (self : AnagramExplorer) (a b : string)
    (letters : list string) :
  is_valid_anagram_pair self (a, b) letters = Ok true →
  Str.len (Str.lower a) = Str.len (Str.lower b) →
  same_group (get_lookup_dict self) (Str.lower a) (Str.lower b).
Proof.
  intros Hr Hlen.
  destruct (decide (Str.lower a ∈ corpus self)) as [Ha|Ha]; cycle 1.
  { by rewrite is_valid_anagram_pair_absent in Hr by (by left). }
  destruct (decide (Str.lower b ∈ corpus self)) as [Hb|Hb]; cycle 1.
  { by rewrite is_valid_anagram_pair_absent in Hr by (by right). }
  rewrite is_valid_anagram_pair_same_len in Hr by done.
  injection Hr as Hr. apply andb_true_iff in Hr as [_ Hm].
  apply bool_decide_eq_true in Hm.
  apply same_group_key; [done|]. split; [|done].
  by apply key_of_eq_Permutation.
Qed.

Lemma X10_valid_same_group_witness :
  same_group (get_lookup_dict (__init__ ["stop"; "pots"])) "stop" "pots".
Proof.
  apply (X10_valid_same_group (__init__ ["stop"; "pots"]) "Stop" "POTS" ["t"]).
  - vm_compute. reflexivity.
  - reflexivity.
Defined.

(** ** The loops of [get_all_anagrams] and [get_most_anagrams]

    Both methods raise before their loops run (C1).  The properties below
    are about the loops themselves, on any sequence of groups and on the
    groups of the look-up dictionary. *)

(** X11 (the loop of [get_all_anagrams]).  On any sequence of groups, the
    set built by the loop holds exactly the words of the groups of more than
    one word. *)
Theorem X11_collect_anagrams_loop (groups : list (list string)) (x : string) :
  x ∈ collect_anagrams groups ↔
    ∃ ws, ws ∈ groups ∧ 1 < length ws ∧ x ∈ ws.
Proof. apply collect_anagrams_elem_of. Qed.

(** X12 (the loop of [get_all_anagrams] on the index).  Run on the groups
    of the look-up dictionary, the loop collects the corpus words for which
    the corpus has at least two entries that are anagrams of the word, the
    word itself and its repetitions included: a word that is merely repeated
    in the corpus is collected. *)
Theorem X12_collect_anagrams_corpus (self : AnagramExplorer) (x : string) :
  x ∈ collect_anagrams (ODict.values (get_lookup_dict self)) ↔
    x ∈ corpus self ∧
    2 ≤ length (filter (λ w, same_multiset w x) (corpus self)).
Proof.
  assert (∀ k, length (with_key k (sorted Str.le (corpus self))) =
               length (filter (λ w, key_of w = k) (corpus self))) as Hlen.
  { intros k. unfold with_key. by rewrite sorted_Permutation. }
  assert (filter (λ w, same_multiset w x) (corpus self) =
          filter (λ w, key_of w = key_of x) (corpus self)) as ->.
  { apply list_filter_iff. intros w. by rewrite key_of_eq_Permutation. }
  rewrite collect_anagrams_get_lookup_dict. split.
  - intros (k & ws & Hg & Hn & Hx).
    destruct (get_lookup_dict_group_key self _ _ _ Hg Hx) as [<- Hc].
    apply get_lookup_dict_get_Some in Hg as [-> _].
    split; [done|]. by rewrite <- Hlen.
  - intros [Hc Hn].
    destruct (get_lookup_dict_own_group self x Hc) as (ws & Hg & Hx).
    exists (key_of x), ws. split_and!; [done| |done].
    apply get_lookup_dict_get_Some in Hg as [-> _]. by rewrite Hlen.
Qed.

(** X13 (the loop of [get_most_anagrams]).  On any sequence of groups, the
    loop keeps the groups whose length is the greatest length among the
    groups, or 2 when no group is longer than that, in the order in which
    they come. *)
Theorem X13_most_anagramable_loop (groups : list (list string)) :
  most_anagramable groups =
    filter (λ v, length v = 2 `max` max_len groups) groups.
Proof. apply most_anagramable_filter. Qed.

(** X14 (no result without a pair).  The loop of [get_most_anagrams] keeps
    no group exactly when no group has two words or more. *)
Theorem X14_most_anagramable_empty (groups : list (list string)) :
  most_anagramable groups = [] ↔ Forall (λ v, length v < 2) groups.
Proof.
  rewrite most_anagramable_filter. split.
  - intros Hnil. apply Forall_forall. intros v Hv.
    destruct (decide (length v < 2)) as [|Hge]; [done|]. exfalso.
    assert (length <$> groups ≠ []) as Hne.
    { intros E. apply (f_equal length) in E. rewrite length_fmap in E.
      destruct groups; [by apply elem_of_nil in Hv|done]. }
    pose proof (max_list_elem_of _ Hne) as Hmax.
    apply list_elem_of_fmap in Hmax as (v' & Hlen & Hv').
    pose proof (max_len_ge groups v Hv) as Hle. unfold max_len in *.
    eapply (filter_nil_not_elem_of _ _ v'); [exact Hnil| |exact Hv'].
    simpl. lia.
  - intros Hall. destruct (filter _ groups) as [|v l] eqn:E; [done|].
    assert (v ∈ filter (λ v, length v = 2 `max` max_len groups) groups)
      as [Hlen Hv]%list_elem_of_filter by (rewrite E; left).
    eapply Forall_forall in Hall; [|exact Hv]. simpl in *. lia.
Qed.

(** X15 ([value[0]] is in range).  On any sequence of groups, the final
    comprehension of [get_most_anagrams] never raises: it returns one word
    for each group kept by the loop, the first word of a group of the
    greatest length, which is at least 2. *)
Theorem X15_firsts_in_range (groups : list (list string)) :
  ∃ r,
    firsts (sorted StrList.le (most_anagramable groups)) = Ok r ∧
    length r = length (most_anagramable groups) ∧
    ∀ x, x ∈ r ↔
      ∃ v, v ∈ groups ∧ head v = Some x ∧
           length v = 2 `max` max_len groups.
Proof.
  set (kept := sorted StrList.le (most_anagramable groups)).
  assert (∀ v, v ∈ kept ↔
            v ∈ groups ∧ length v = 2 `max` max_len groups) as Hkept.
  { intros v. unfold kept.
    rewrite sorted_elem_of, most_anagramable_filter, list_elem_of_filter.
    tauto. }
  assert (Forall (λ v, v ≠ []) kept) as Hne.
  { apply Forall_forall. intros v [_ Hlen]%Hkept ->. simpl in Hlen. lia. }
  eexists. split_and!.
  - by apply firsts_Ok.
  - rewrite length_fmap. unfold kept. by rewrite sorted_Permutation.
  - intros x. rewrite list_elem_of_fmap. split.
    + intros (v & -> & Hv). pose proof Hv as [Hg Hlen]%Hkept.
      exists v. split_and!; [done| |done].
      destruct v; [|done]. simpl in Hlen. lia.
    + intros (v & Hv & Hhd & Hlen). exists v. split; [by rewrite Hhd|].
      by apply Hkept.
Qed.

(** X16 (the two queries together).  On any sequence of groups, every word
    that the body of [get_most_anagrams] returns is in the set that the body
    of [get_all_anagrams] builds. *)
Theorem X16_most_within_all (groups : list (list string))
    (r : list string) (x : string) :
  firsts (sorted StrList.le (most_anagramable groups)) = Ok r →
  x ∈ r → x ∈ collect_anagrams groups.
Proof.
  intros Hr Hx. apply collect_anagrams_elem_of.
  assert (Forall (λ v, v ≠ [] ∧ v ∈ groups ∧ 1 < length v)
            (sorted StrList.le (most_anagramable groups))) as Hall.
  { apply Forall_forall. intros v.
    rewrite sorted_elem_of, most_anagramable_filter, list_elem_of_filter.
    intros [Hlen Hv]. split_and!; [|done|lia].
    intros ->. simpl in Hlen. lia. }
  revert r Hr Hx.
  induction Hall as [|v l (Hne & Hv & Hlen) _ IH]; intros r; simpl.
  - intros [= <-] ?%elem_of_nil. done.
  - destruct v as [|y v]; [done|]. simpl.
    destruct (firsts l) as [xs|e]; simpl; [|done].
    intros [= <-] [->|Hx]%elem_of_cons.
    + exists (y :: v). split_and!; [done..|left].
    + by eapply IH.
Qed.

Lemma X16_most_within_all_witness :
  "art" ∈ collect_anagrams [["art"; "rat"; "tar"]; ["mouse"]; ["pots"; "stop"]].
Proof.
  apply (X16_most_within_all _ ["art"] "art").
  - vm_compute. reflexivity.
  - apply list_elem_of_here.
Defined.

(** X17 (the body of [get_most_anagrams] on the index).  Run on the groups
    of the look-up dictionary, the body returns a lexicographically sorted
    list that holds exactly the first words of the groups of the greatest
    size (at least 2); each of them is the lexicographically least word of
    its group. *)
Theorem X17_most_anagrams_index (self : AnagramExplorer) :
  ∃ r,
    firsts (sorted StrList.le
              (most_anagramable (ODict.values (get_lookup_dict self))))
      = Ok r ∧
    Sorted Str.le r ∧
    ∀ x, x ∈ r ↔
      ∃ k ws, ODict.get k (get_lookup_dict self) = Some ws ∧
        length ws = 2 `max` max_len (ODict.values (get_lookup_dict self)) ∧
        head ws = Some x ∧ Forall (Str.le x) ws.
Proof. apply most_anagrams_get_lookup_dict. Qed.

(** ** The order of the groups in the look-up dictionary *)

Module StrListOrder.

Lemma compare_Lt_trans (x y z : string) :
  String.compare x y = Lt → String.compare y z = Lt →
  String.compare x z = Lt.
Proof.
  intros Hxy Hyz.
  assert (String.compare x z ≠ Gt) as Hne
    by (apply (StrFacts.compare_le_trans x y z); congruence).
  destruct (String.compare x z) eqn:E; [|done..].
  apply String.compare_eq_iff in E as ->.
  rewrite String.compare_antisym, Hyz in Hxy. done.
Qed.

Global Instance le_trans : Transitive StrList.le.
Proof.
  unfold StrList.le. intros l1.
  induction l1 as [|x l1 IH]; intros [|y l2] [|z l3]; simpl; try done.
  destruct (String.compare x y) eqn:Exy; [|intros _|done].
  - apply String.compare_eq_iff in Exy as ->.
    destruct (String.compare y z); [apply IH|done..].
  - destruct (String.compare y z) eqn:Eyz; [|intros _|done].
    + apply String.compare_eq_iff in Eyz as ->. by rewrite Exy.
    + by rewrite (compare_Lt_trans x y z).
Qed.

Global Instance le_antisym : AntiSymm (=) StrList.le.
Proof.
  unfold StrList.le. intros l1.
  induction l1 as [|x l1 IH]; intros [|y l2]; simpl; try done.
  rewrite (String.compare_antisym y x).
  destruct (String.compare x y) eqn:Exy; simpl; [|done..].
  apply String.compare_eq_iff in Exy as ->.
  intros H1 H2. f_equal. by apply IH.
Qed.

Lemma first_lt_le (g1 g2 : list string) : first_lt g1 g2 → StrList.le g1 g2.
Proof.
  unfold first_lt, StrList.le.
  destruct g1 as [|x g1], g2 as [|y g2]; simpl; try done.
  by intros ->.
Qed.

End StrListOrder.

Section sorted_more.
Context {A : Type}.

Lemma StronglySorted_weaken (R R' : relation A) (l : list A) :
  (∀ x y, R x y → R' x y) → StronglySorted R l → StronglySorted R' l.
Proof.
  intros HR. induction 1 as [|x l Hl IH Hx]; constructor; [done|].
  eapply Forall_impl; [exact Hx|]. intros y. apply HR.
Qed.

Lemma StronglySorted_filter (R : relation A) (P : A → Prop)
    `{!∀ x, Decision (P x)} (l : list A) :
  StronglySorted R l → StronglySorted R (filter P l).
Proof.
  induction 1 as [|x l Hl IH Hx]; [constructor|].
  rewrite filter_cons. destruct (decide (P x)); [|done].
  constructor; [done|].
  apply Forall_forall. intros y [_ Hy]%list_elem_of_filter.
  by eapply Forall_forall in Hx.
Qed.

Lemma StronglySorted_fmap_iff {B} (f : A → B) (R : relation B) (l : list A) :
  StronglySorted R (f <$> l) ↔ StronglySorted (λ a b, R (f a) (f b)) l.
Proof.
  induction l as [|x l IH]; simpl.
  - split; constructor.
  - rewrite !StronglySorted_cons, IH, Forall_fmap. done.
Qed.

(** Sorting a sorted list gives the list back. *)
Lemma sorted_id (R : relation A)
    `{!RelDecision R, !Transitive R, !Total R, !AntiSymm (=) R} (l : list A) :
  StronglySorted R l → sorted R l = l.
Proof.
  intros Hl. symmetry. apply sorted_unique; [done..|].
  by apply StronglySorted_Sorted.
Qed.

End sorted_more.

Section order_facts.
Implicit Types (d : list (list string * list string)) (l : list string).

Lemma set_elem_of {K V} `{!EqDecision K} (k k' : K) (v v' : V)
    (d0 : list (K * V)) :
  (k', v') ∈ ODict.set k v d0 → (k' = k ∧ v' = v) ∨ (k', v') ∈ d0.
Proof.
  induction d0 as [|[k0 v0] d0 IH]; simpl.
  - intros [= -> ->]%list_elem_of_singleton. by left.
  - destruct (decide (k = k0)) as [->|Hne].
    + intros [[= -> ->]|Hin]%elem_of_cons; [by left|].
      right. by right.
    + intros [[= -> ->]|Hin]%elem_of_cons; [right; left|].
      destruct (IH Hin) as [?|?]; [by left|right; by right].
Qed.

Lemma set_None_app {K V} `{!EqDecision K} (k : K) (v : V) (d0 : list (K * V)) :
  ODict.get k d0 = None → ODict.set k v d0 = d0 ++ [(k, v)].
Proof.
  induction d0 as [|[k0 v0] d0 IH]; simpl; [done|].
  destruct (decide (k = k0)); [done|]. intros Hg. by rewrite IH.
Qed.

Lemma heads_set_Some {K} `{!EqDecision K} (k : K) (v ws : list string)
    (d0 : list (K * list string)) :
  ODict.get k d0 = Some ws → head v = head ws →
  head <$> ODict.values (ODict.set k v d0) = head <$> ODict.values d0.
Proof.
  unfold ODict.values. induction d0 as [|[k0 v0] d0 IH]; simpl; [done|].
  destruct (decide (k = k0)) as [->|Hne]; simpl.
  - intros [= ->] Hh. by rewrite Hh.
  - intros Hg Hh. f_equal. by apply IH.
Qed.

Lemma build_order d l :
  well_keyed d →
  (∀ k ws x w', (k, ws) ∈ d → x ∈ ws → w' ∈ l → Str.le x w') →
  StronglySorted Str.le l →
  StronglySorted ohead_lt (head <$> ODict.values d) →
  StronglySorted ohead_lt (head <$> ODict.values (foldl lookup_step d l)).
Proof.
  revert d. induction l as [|w l IH]; intros d Hwk Hle Hl Hd; simpl; [done|].
  apply StronglySorted_cons in Hl as [Hw Hl].
  unfold lookup_step at 2.
  destruct (ODict.get (key_of w) d) as [ws|] eqn:Hg; simpl.
  - (* the word joins the group of its key *)
    pose proof (ODictFacts.get_Some_elem_of _ _ _ Hg) as Hin.
    destruct (Hwk _ _ Hin) as [Hne Hkey].
    apply IH; [| |done|].
    + intros k' ws' [[-> ->]|Hin']%set_elem_of; [|by apply Hwk].
      split; [by destruct ws|].
      intros x [Hx| ->%list_elem_of_singleton]%elem_of_app; auto.
    + intros k' ws' x w' [[-> ->]|Hin']%set_elem_of Hx Hw'.
      * apply elem_of_app in Hx as [Hx| ->%list_elem_of_singleton].
        -- eapply Hle; [exact Hin|done|by right].
        -- by eapply Forall_forall in Hw.
      * eapply Hle; [exact Hin'|done|by right].
    + rewrite (heads_set_Some _ _ ws); [done..|]. by destruct ws.
  - (* the word opens a group, after all the others *)
    rewrite set_None_app by done.
    apply IH; [| |done|].
    + intros k' ws' [Hin'|[= -> ->]%list_elem_of_singleton]%elem_of_app;
        [by apply Hwk|].
      split; [done|]. by intros x ->%list_elem_of_singleton.
    + intros k' ws' x w'
        [Hin'|[= -> ->]%list_elem_of_singleton]%elem_of_app Hx Hw'.
      * eapply Hle; [exact Hin'|done|by right].
      * apply list_elem_of_singleton in Hx as ->.
        by eapply Forall_forall in Hw.
    + unfold ODict.values. rewrite !fmap_app. simpl.
      apply StronglySorted_app. split_and!; [|done|repeat constructor].
      intros o1 o2 Ho1 ->%list_elem_of_singleton.
      apply list_elem_of_fmap in Ho1 as (g & -> & Hg1).
      apply list_elem_of_fmap in Hg1 as ([k' ws'] & -> & Hin').
      destruct (Hwk _ _ Hin') as [Hne Hkey]. simpl.
      destruct ws' as [|x ws']; [done|]. simpl.
      assert (Str.le x w) as Hxw
        by (eapply Hle; [exact Hin'|left|left]).
      apply StrFacts.le_compare in Hxw.
      destruct (String.compare x w) eqn:E; [|done..].
      apply String.compare_eq_iff in E as ->.
      apply ODictFacts.get_None_not_key in Hg. exfalso. apply Hg.
      rewrite (Hkey w) by left.
      unfold ODict.keys. apply list_elem_of_fmap. by exists (k', w :: ws').
Qed.

Lemma get_lookup_dict_first_lt (self : AnagramExplorer) :
  StronglySorted first_lt (ODict.values (get_lookup_dict self)).
Proof.
  apply (StronglySorted_fmap_iff head ohead_lt).
  unfold get_lookup_dict. apply build_order.
  - by intros k ws ?%elem_of_nil.
  - by intros k ws x w' ?%elem_of_nil.
  - apply sorted_StronglySorted; apply _.
  - constructor.
Qed.

End order_facts.

(** X18 (the order of the groups).  The groups stand in the look-up
    dictionary in strictly increasing order of their first words: a group
    comes before another exactly as its least word comes before the least
    word of the other. *)
Theorem X18_groups_in_order (self : AnagramExplorer) :
  StronglySorted first_lt (ODict.values (get_lookup_dict self)) ∧
  StronglySorted StrList.le (ODict.values (get_lookup_dict self)).
Proof.
  split; [apply get_lookup_dict_first_lt|].
  eapply StronglySorted_weaken; [|apply get_lookup_dict_first_lt].
  apply StrListOrder.first_lt_le.
Qed.

(** X19 ([sorted] changes nothing).  In the body of [get_most_anagrams]
    run on the groups of the look-up dictionary, the groups kept by the loop
    are already in sorted order: [sorted(most_anagramable)] is
    [most_anagramable]. *)
Theorem X19_sorted_most_anagramable (self : AnagramExplorer) :
  sorted StrList.le (most_anagramable (ODict.values (get_lookup_dict self)))
    = most_anagramable (ODict.values (get_lookup_dict self)).
Proof.
  apply sorted_id; [apply _..|].
  rewrite most_anagramable_filter. apply StronglySorted_filter.
  eapply StronglySorted_weaken; [|apply get_lookup_dict_first_lt].
  apply StrListOrder.first_lt_le.
Qed.

(** ** The script *)

(** The run of the script prints its banner and [False] twice (the letter
    ["l"] is in neither ["rat"] nor ["stop"]), then ends on the [TypeError]
    of [get_most_anagrams]. *)
Example main_run :
  main = ([PStr "Running AnagramExplorer for testing";
           PValue (VBool false); PValue (VBool false)],
          Raise TypeError).
Proof. vm_compute. reflexivity. Qed.

(** * The instance in the store *)

Section store_facts.
Implicit Types (h : store) (d : list (list string * addr)).









End store_facts.



(** The condition on the caller is needed: the instance reads the caller's
    own list, so once the caller has added a word to it, [get_lookup_dict()]
    no longer returns the mapping stored at construction. *)
Example corpus_write_shows_in_recomputation :
  let constructed := Store.__init__ 0 [OList ["rat"]] in
  let h3 := Store.run constructed.1 constructed.2
              [Client_write 0 (OList ["rat"; "tar"])] in
  let recomputed := Store.get_lookup_dict constructed.1 h3 in
  anagram_lookup_ref constructed.1 = Some 1 ∧
  Store.deep_dict recomputed.2 1 = [(["a"; "r"; "t"], ["rat"])] ∧
  Store.deep_dict recomputed.2 recomputed.1 =
    [(["a"; "r"; "t"], ["rat"; "tar"])].
Proof. vm_compute. done. Qed.
